(** * The worker's mock driver (src/server/worker/driver/testing.go)

  A shallow embedding of [MockDriver] and of the collaborators it calls,
  with the properties the specification states about it. Go pointers are
  addresses into an explicit heap, Go's [error] is [option error], the
  local disk and the metadata store are fields of one [World] that every
  operation threads, and a panic is an outcome of its own so that deferred
  calls can be run on it. *)

From Stdlib Require Import ZArith Lia Ascii String List.
From stdpp Require Import base option list gmap strings pretty sorting.

Open Scope Z_scope.

(** ** Go's [path/filepath] on Unix: [Clean] and [Join]

  [filepath.Join] is the only path arithmetic the driver does. [Clean]
  is modelled element by element: the path is cut at its separators, the
  elements are pushed on a stack ([".."] pops a real element, is kept in
  front of a relative path, and is dropped at the root), and the stack is
  written out again. *)
Module Filepath.

Definition Separator : ascii := "/"%char.

Definition IsPathSeparator (c : ascii) : bool := Ascii.eqb c Separator.

(** [strings.Split(s, "/")]. *)
Fixpoint split (s : string) : list string :=
  match s with
  | EmptyString => [EmptyString]
  | String c r =>
      if IsPathSeparator c then EmptyString :: split r
      else match split r with
           | [] => [String c EmptyString]
           | e :: es => String c e :: es
           end
  end.

(** [strings.Join(elems, "/")]. *)
Fixpoint join_sep (elems : list string) : string :=
  match elems with
  | [] => ""
  | [e] => e
  | e :: es => e +:+ "/" +:+ join_sep es
  end.

(** One element read by [Clean]'s loop; [out] is the output so far, last
    element first. *)
Definition clean_step (rooted : bool) (out : list string) (e : string)
  : list string :=
  if String.eqb e "" then out
  else if String.eqb e "." then out
  else if String.eqb e ".." then
    match out with
    | top :: rest =>
        if String.eqb top ".." then ".." :: out else rest
    | [] => if rooted then [] else [".."]
    end
  else e :: out.

Definition rooted (path : string) : bool :=
  match path with
  | String c _ => IsPathSeparator c
  | EmptyString => false
  end.

Definition Clean (path : string) : string :=
  if String.eqb path "" then "."
  else
    let out := rev (fold_left (clean_step (rooted path)) (split path) []) in
    if rooted path then "/" +:+ join_sep out
    else match out with
         | [] => "."
         | _ => join_sep out
         end.

(** [filepath.Join]: leading empty elements are dropped, the rest is
    joined with the separator and cleaned. *)
Fixpoint Join (elem : list string) : string :=
  match elem with
  | [] => ""
  | e :: es =>
      if String.eqb e "" then Join es else Clean (join_sep (e :: es))
  end.

(** An element that [Clean] copies as it is: not empty, not ["."], not
    [".."], and free of separators. *)
Fixpoint no_sep (s : string) : bool :=
  match s with
  | EmptyString => true
  | String c r => negb (IsPathSeparator c) && no_sep r
  end.

Definition plain (e : string) : bool :=
  negb (String.eqb e "") && negb (String.eqb e ".")
  && negb (String.eqb e "..") && no_sep e.

(** The elements, each followed by a separator. *)
Fixpoint with_sep (elems : list string) : string :=
  match elems with
  | [] => ""
  | e :: es => e +:+ "/" +:+ with_sep es
  end.

(** What [Join] puts in front of the plain elements that follow [root]:
    nothing for an empty root, otherwise the cleaned root's elements,
    each followed by a separator, after the leading separator of a
    rooted path. *)
Definition dir_prefix (root : string) : string :=
  if String.eqb root "" then ""
  else
    (if rooted root then "/" else "")
    +:+ with_sep (rev (fold_left (clean_step (rooted root)) (split root) [])).

End Filepath.

(** ** Messages of the [pps] package

    Modelled from the spec: the [pps] package is not among the sources.
    Section 3 gives a job its "identifier, owning pipeline reference,
    state (enum, see section 4.5), ... failure reason" and a datum's
    [ProcessStats] the "time spent uploading/downloading/processing,
    bytes moved"; section 4.5 lists the states. *)
Module pps.

(** The states of a job (section 4.5 of the specification). *)
Inductive JobState : Type :=
  | JOB_STARTING
  | JOB_RUNNING
  | JOB_EGRESSING
  | JOB_SUCCESS
  | JOB_FAILURE
  | JOB_KILLED.

Global Instance JobState_eq_dec : EqDecision JobState.
Proof. solve_decision. Defined.

Record PipelineInfo : Type := {
  pipeline_name : string;
  pipeline_version : Z
}.

(** Time and bytes spent on one datum; [&pps.ProcessStats{}] is
    [ProcessStats_zero]. *)
Record ProcessStats : Type := {
  download_time : Z;
  process_time : Z;
  upload_time : Z;
  download_bytes : Z;
  upload_bytes : Z
}.

Definition ProcessStats_zero : ProcessStats :=
  {| download_time := 0; process_time := 0; upload_time := 0;
     download_bytes := 0; upload_bytes := 0 |}.

Record EtcdJobInfo : Type := {
  job_id : string;
  job_pipeline : string;
  job_state : JobState;
  job_reason : string
}.

Definition EtcdJobInfo_zero : EtcdJobInfo :=
  {| job_id := ""; job_pipeline := ""; job_state := JOB_STARTING;
     job_reason := "" |}.

Record EtcdPipelineInfo : Type := {
  last_job_state : JobState
}.

Record ParallelismSpec : Type := {
  constant : Z;
  coefficient : Z
}.

End pps.

(** ** Errors

  Go's [error] is an interface value that may be nil: [option error]. *)
Inductive error : Type :=
| PathError (op path errno : string)
| ErrNotFound (collection key : string)
| ErrInvalidTransition (from to : pps.JobState)
| ErrMalformed (collection key : string)
| ErrOther (msg : string).

Global Instance error_eq_dec : EqDecision error.
Proof. solve_decision. Defined.

(** ** Pointers and the objects they reach *)
Inductive ptr : Type :=
| nil
| addr (a : nat).

Global Instance ptr_eq_dec : EqDecision ptr.
Proof. solve_decision. Defined.

Inductive Context : Type :=
| Background
| WithValue (parent : Context) (key val : string)
| Cancelled (parent : Context).

Module MockOptions.

(** [MockOptions]; Go's [int] is a 64-bit signed integer, carried as a
    [Z]. [PipelineInfo] is a pointer the driver only ever reads
    through. *)
Record t : Type := {
  NumWorkers : Z;
  NumShards : Z;
  EtcdPrefix : string;
  PipelineInfo : option pps.PipelineInfo;
  HashtreePath : string
}.

(** [&MockOptions{}]. *)
Definition zero : t :=
  {| NumWorkers := 0; NumShards := 0; EtcdPrefix := "";
     PipelineInfo := None; HashtreePath := "" |}.

Definition set_NumWorkers (n : Z) (o : t) : t :=
  {| NumWorkers := n; NumShards := NumShards o;
     EtcdPrefix := EtcdPrefix o; PipelineInfo := PipelineInfo o;
     HashtreePath := HashtreePath o |}.

Definition set_NumShards (n : Z) (o : t) : t :=
  {| NumWorkers := NumWorkers o; NumShards := n;
     EtcdPrefix := EtcdPrefix o; PipelineInfo := PipelineInfo o;
     HashtreePath := HashtreePath o |}.

End MockOptions.

(** Modelled from the spec: the [cache] package is not among the sources.
  A worker cache "occup[ies] a dedicated root directory passed in at
  construction"; the interface value [cache.WorkerCache] may be nil. *)
Module cache.

Record WorkerCache : Type := { hashtreeStorage : string }.

Definition NewWorkerCache (hashtreeStorage : string) : WorkerCache :=
  {| hashtreeStorage := hashtreeStorage |}.

End cache.

(** The handle [*etcd.Client]. *)
Definition EtcdClient : Type := nat.

Record MockDriver : Type := {
  ctx : Context;
  options : ptr;
  etcdClient : option EtcdClient;
  chunkCache : option cache.WorkerCache;
  chunkStatsCache : option cache.WorkerCache
}.

(** [&MockDriver{}]. *)
Definition MockDriver_zero : MockDriver :=
  {| ctx := Background; options := nil; etcdClient := None;
     chunkCache := None; chunkStatsCache := None |}.

(** ** The world

    Everything a driver call can read or change: the heap that holds the
    [MockOptions], [MockDriver] and [ProcessStats] objects, the local
    disk with the faults its system calls may report, the source of run
    identifiers, and the metadata store with the working copy of the
    open transaction. *)
Inductive FileKind : Type :=
| Dir
| File.

Global Instance FileKind_eq_dec : EqDecision FileKind.
Proof. solve_decision. Defined.

(** What a key of the metadata store holds. *)
Inductive EtcdValue : Type :=
| VJob (j : pps.EtcdJobInfo)
| VPipeline (p : pps.EtcdPipelineInfo).

Record World : Type := {
  heap_options : list MockOptions.t;
  heap_drivers : list MockDriver;
  heap_stats : list pps.ProcessStats;
  disk : gmap string FileKind;
  mkdir_fault : string -> option error;
  remove_fault : string -> option error;
  uuid_source : nat -> string;
  uuid_drawn : nat;
  etcd : gmap (string * string) EtcdValue;
  txn : gmap (string * string) EtcdValue
}.

Definition set_heap_options (h : list MockOptions.t) (w : World) : World :=
  {| heap_options := h; heap_drivers := heap_drivers w;
     heap_stats := heap_stats w; disk := disk w;
     mkdir_fault := mkdir_fault w; remove_fault := remove_fault w;
     uuid_source := uuid_source w; uuid_drawn := uuid_drawn w;
     etcd := etcd w; txn := txn w |}.

Definition set_heap_drivers (h : list MockDriver) (w : World) : World :=
  {| heap_options := heap_options w; heap_drivers := h;
     heap_stats := heap_stats w; disk := disk w;
     mkdir_fault := mkdir_fault w; remove_fault := remove_fault w;
     uuid_source := uuid_source w; uuid_drawn := uuid_drawn w;
     etcd := etcd w; txn := txn w |}.

Definition set_heap_stats (h : list pps.ProcessStats) (w : World) : World :=
  {| heap_options := heap_options w; heap_drivers := heap_drivers w;
     heap_stats := h; disk := disk w;
     mkdir_fault := mkdir_fault w; remove_fault := remove_fault w;
     uuid_source := uuid_source w; uuid_drawn := uuid_drawn w;
     etcd := etcd w; txn := txn w |}.

Definition set_disk (d : gmap string FileKind) (w : World) : World :=
  {| heap_options := heap_options w; heap_drivers := heap_drivers w;
     heap_stats := heap_stats w;
     disk := d;
     mkdir_fault := mkdir_fault w; remove_fault := remove_fault w;
     uuid_source := uuid_source w; uuid_drawn := uuid_drawn w;
     etcd := etcd w; txn := txn w |}.

Definition set_uuid_drawn (n : nat) (w : World) : World :=
  {| heap_options := heap_options w; heap_drivers := heap_drivers w;
     heap_stats := heap_stats w;
     disk := disk w;
     mkdir_fault := mkdir_fault w; remove_fault := remove_fault w;
     uuid_source := uuid_source w; uuid_drawn := n;
     etcd := etcd w; txn := txn w |}.

Definition set_etcd (e : gmap (string * string) EtcdValue) (w : World)
  : World :=
  {| heap_options := heap_options w; heap_drivers := heap_drivers w;
     heap_stats := heap_stats w;
     disk := disk w;
     mkdir_fault := mkdir_fault w; remove_fault := remove_fault w;
     uuid_source := uuid_source w; uuid_drawn := uuid_drawn w;
     etcd := e; txn := txn w |}.

Definition set_txn (e : gmap (string * string) EtcdValue) (w : World)
  : World :=
  {| heap_options := heap_options w; heap_drivers := heap_drivers w;
     heap_stats := heap_stats w;
     disk := disk w;
     mkdir_fault := mkdir_fault w; remove_fault := remove_fault w;
     uuid_source := uuid_source w; uuid_drawn := uuid_drawn w;
     etcd := etcd w; txn := e |}.

(** ** Calls

    A call either returns a value or panics; both leave a world behind. *)
Inductive Outcome (A : Type) : Type :=
| Returned (a : A) (w : World)
| Panicked (w : World).

Arguments Returned {A} a w.
Arguments Panicked {A} w.

Definition M (A : Type) : Type := World -> Outcome A.

Definition ret {A : Type} (a : A) : M A := fun w => Returned a w.

Definition panic {A : Type} : M A := fun w => Panicked w.

Definition bind {A B : Type} (m : M A) (k : A -> M B) : M B :=
  fun w =>
    match m w with
    | Returned a w' => k a w'
    | Panicked w' => Panicked w'
    end.

Declare Scope go_scope.
Delimit Scope go_scope with go.
Notation "'let*' x ':=' m 'in' k" := (bind m (fun x => k))
  (at level 10, x name, m at level 100, k at level 200) : go_scope.
Open Scope go_scope.

Definition get_world : M World := fun w => Returned w w.

Definition modify (f : World -> World) : M unit :=
  fun w => Returned tt (f w).

(** The world a call leaves behind. *)
Definition world_of {A : Type} (o : Outcome A) : World :=
  match o with
  | Returned _ w => w
  | Panicked w => w
  end.

(** *** The heap: [new], [*p] and [*p = v] *)
Definition new_options (o : MockOptions.t) : M ptr :=
  fun w =>
    Returned (addr (length (heap_options w)))
             (set_heap_options (heap_options w ++ [o]) w).

Definition load_options (p : ptr) : M MockOptions.t :=
  fun w =>
    match p with
    | nil => Panicked w
    | addr a =>
        match heap_options w !! a with
        | Some o => Returned o w
        | None => Panicked w
        end
    end.

Definition store_options (p : ptr) (o : MockOptions.t) : M unit :=
  fun w =>
    match p with
    | nil => Panicked w
    | addr a =>
        match heap_options w !! a with
        | Some _ => Returned tt (set_heap_options (<[a:=o]> (heap_options w)) w)
        | None => Panicked w
        end
    end.

Definition new_driver (d : MockDriver) : M ptr :=
  fun w =>
    Returned (addr (length (heap_drivers w)))
             (set_heap_drivers (heap_drivers w ++ [d]) w).

Definition load_driver (p : ptr) : M MockDriver :=
  fun w =>
    match p with
    | nil => Panicked w
    | addr a =>
        match heap_drivers w !! a with
        | Some d => Returned d w
        | None => Panicked w
        end
    end.

Definition store_driver (p : ptr) (d : MockDriver) : M unit :=
  fun w =>
    match p with
    | nil => Panicked w
    | addr a =>
        match heap_drivers w !! a with
        | Some _ => Returned tt (set_heap_drivers (<[a:=d]> (heap_drivers w)) w)
        | None => Panicked w
        end
    end.

Definition new_stats (st : pps.ProcessStats) : M ptr :=
  fun w =>
    Returned (addr (length (heap_stats w)))
             (set_heap_stats (heap_stats w ++ [st]) w).

Definition load_stats (p : ptr) : M pps.ProcessStats :=
  fun w =>
    match p with
    | nil => Panicked w
    | addr a =>
        match heap_stats w !! a with
        | Some st => Returned st w
        | None => Panicked w
        end
    end.

Definition store_stats (p : ptr) (st : pps.ProcessStats) : M unit :=
  fun w =>
    match p with
    | nil => Panicked w
    | addr a =>
        match heap_stats w !! a with
        | Some _ => Returned tt (set_heap_stats (<[a:=st]> (heap_stats w)) w)
        | None => Panicked w
        end
    end.

(** *** [defer]

    [with_defer deferred zero body]: the deferred function runs when
    [body] returns, on the named result, which it may replace; it also
    runs when [body] panics, on the result's value at that moment
    ([zero]), and the panic goes on. *)
Definition with_defer {A : Type} (deferred : A -> M A) (zero : A)
  (body : M A) : M A :=
  fun w =>
    match body w with
    | Returned r w' => deferred r w'
    | Panicked w' => Panicked (world_of (deferred zero w'))
    end.

(** ** Go's [os] package on the modelled disk

    Paths are keys of [disk] as they are written; the driver only passes
    paths that [filepath.Join] has cleaned. A system call fails when the
    world's fault plan says so. *)
Module os.

(** The directories above [s], outermost first; [pre] is what was read. *)
Fixpoint parents_from (pre s : string) : list string :=
  match s with
  | EmptyString => []
  | String c r =>
      if Filepath.IsPathSeparator c && negb (String.eqb pre "")
      then pre :: parents_from (pre +:+ String c EmptyString) r
      else parents_from (pre +:+ String c EmptyString) r
  end.

Definition parents (path : string) : list string := parents_from "" path.

(** The directory a path is an entry of; the root and the working
    directory, which a path of one element is an entry of, are not on the
    modelled disk and are always there. *)
Definition dir_above (path : string) : option string := last (parents path).

(** [os.Mkdir]: the directory above must be there, and the path must
    not. *)
Definition Mkdir (path : string) (perm : Z) : M (option error) :=
  fun w =>
    if String.eqb path "" then
      Returned (Some (PathError "mkdir" path "ENOENT")) w
    else
      match mkdir_fault w path with
      | Some e => Returned (Some e) w
      | None =>
          let above :=
            match dir_above path with
            | Some p => disk w !! p
            | None => Some Dir
            end in
          match above with
          | None => Returned (Some (PathError "mkdir" path "ENOENT")) w
          | Some File =>
              Returned (Some (PathError "mkdir" path "ENOTDIR")) w
          | Some Dir =>
              match disk w !! path with
              | Some _ =>
                  Returned (Some (PathError "mkdir" path "EEXIST")) w
              | None => Returned None (set_disk (<[path:=Dir]> (disk w)) w)
              end
          end
      end.

(** The last step of [os.MkdirAll]: [Mkdir] is called, and its error is
    dropped when the path is a directory after all. *)
Definition Mkdir_last (path : string) (perm : Z) : M (option error) :=
  let* err := Mkdir path perm in
  match err with
  | Some e =>
      let* w' := get_world in
      match disk w' !! path with
      | Some Dir => ret None
      | _ => ret (Some e)
      end
  | None => ret None
  end.

(** [os.MkdirAll] along [chain]: the path itself, then its parent, and so
    on. A path that is a directory is done; one that is a file is an
    error; otherwise the parent is made first and then the path. *)
Fixpoint MkdirAll_chain (chain : list string) (perm : Z)
  : M (option error) :=
  match chain with
  | [] => ret None
  | path :: up =>
      fun w =>
        match disk w !! path with
        | Some Dir => Returned None w
        | Some File =>
            Returned (Some (PathError "mkdir" path "ENOTDIR")) w
        | None =>
            (let* err := MkdirAll_chain up perm in
             match err with
             | Some e => ret (Some e)
             | None => Mkdir_last path perm
             end) w
        end
  end.

Definition MkdirAll (path : string) (perm : Z) : M (option error) :=
  MkdirAll_chain (path :: rev (parents path)) perm.

(** [q] is [dir] or lies below it. *)
Definition under (dir q : string) : bool :=
  String.eqb q dir || String.prefix (dir +:+ "/") q.

(** The last element of a path of two characters or more is a dot. *)
Fixpoint ends_sep_dot (path : string) : bool :=
  match path with
  | String a (String b r' as r) =>
      match r' with
      | EmptyString => Filepath.IsPathSeparator a && Ascii.eqb b "."
      | _ => ends_sep_dot r
      end
  | _ => false
  end.

(** [endsWithDot]. *)
Definition endsWithDot (path : string) : bool :=
  String.eqb path "." || ends_sep_dot path.

(** [os.RemoveAll]: nothing to do for the empty path, and a path that
    ends in a dot is refused; otherwise the path and all it contains go
    (nothing happens when there is nothing at the path), unless the fault
    plan makes the call fail. A fault of the plan is a failure of the call
    before anything is removed, as when the directory above the path
    cannot be opened: Go then returns the error whether or not there is
    anything at the path, and the tree is as it was. A failure on a single
    entry below the path, after which Go has removed what it could, is
    not in the plan. *)
Definition RemoveAll (path : string) : M (option error) :=
  fun w =>
    if String.eqb path "" then Returned None w
    else if endsWithDot path then
      Returned (Some (PathError "RemoveAll" path "EINVAL")) w
    else
      match remove_fault w path with
      | Some e => Returned (Some e) w
      | None =>
          Returned None
            (set_disk (filter (fun kv => under path kv.1 = false) (disk w)) w)
      end.

End os.

(** Modelled from the spec: the [uuid] package is not among the sources.
    Section 6 names a run's directories by its run identifier,
    "[<root>/datum/<runID>]"; each call reads the next identifier of the
    world's source. *)
Module uuid.

Definition NewWithoutDashes : M string :=
  fun w =>
    Returned (uuid_source w (uuid_drawn w))
             (set_uuid_drawn (S (uuid_drawn w)) w).

End uuid.

(** ** Collaborators the driver's signatures mention

    Modelled from the spec: the [common], [logs], [hashtree] and [client]
    packages are not among the sources; the driver only passes their
    values on. A merge cache "occup[ies] a dedicated root directory
    passed in at construction" (section 6). *)
Module common.

Record Input : Type := {
  input_name : string;
  input_file : string
}.

End common.

Module logs.

Record TaggedLogger : Type := { tags : list string }.

End logs.

Module hashtree.

(** A filesystem tree in path order: each file with the hash of its
    content. *)
Definition Ordered : Type := list (string * string).

(** [*hashtree.MergeCache]: the directory the cache keeps its files in. *)
Record MergeCache : Type := { root : string }.

Definition NewMergeCache (root : string) : MergeCache := {| root := root |}.

End hashtree.

(** Modelled from the spec: the [collection] package is not among the
    sources. Section 4.1: "[Get(collection, key) -> value | NotFound];
    [Put/Delete] within a transaction; [RunTransaction(fn) -> committed |
    Aborted(conflict)]. All reads inside a transaction observe a single
    consistent snapshot; writes are only visible after commit." One
    transaction is open at a time, so none is ever aborted by a conflict;
    its working copy is the world's [txn]. *)
Module col.

Record Collection : Type := {
  client : option EtcdClient;
  prefix : string;
  name : string
}.

Definition NewCollection (client : option EtcdClient) (prefix name : string)
  : Collection :=
  {| client := client; prefix := prefix; name := name |}.

(** Where [key] of collection [c] is stored. *)
Definition Path (c : Collection) (key : string) : string * string :=
  (prefix c +:+ "/" +:+ name c, key).

(** The handle of the open transaction. *)
Inductive STM : Type :=
| stm_open.

(** [c.ReadWrite(stm)]. *)
Record ReadWriteCollection : Type := {
  rw_collection : Collection;
  rw_stm : STM
}.

Definition ReadWrite (c : Collection) (stm : STM) : ReadWriteCollection :=
  {| rw_collection := c; rw_stm := stm |}.

(** [Get(key, val)] into a job record: the record read, or the error and
    the record as it was passed. *)
Definition Get (c : ReadWriteCollection) (key : string)
  (val : pps.EtcdJobInfo) : M (option error * pps.EtcdJobInfo) :=
  fun w =>
    match txn w !! Path (rw_collection c) key with
    | Some (VJob j) => Returned (None, j) w
    | Some (VPipeline _) =>
        Returned (Some (ErrMalformed (name (rw_collection c)) key), val) w
    | None =>
        Returned (Some (ErrNotFound (name (rw_collection c)) key), val) w
    end.

Definition Put (c : ReadWriteCollection) (key : string) (val : EtcdValue)
  : M (option error) :=
  fun w =>
    Returned None
      (set_txn (<[Path (rw_collection c) key := val]> (txn w)) w).

Definition Delete (c : ReadWriteCollection) (key : string)
  : M (option error) :=
  fun w =>
    Returned None (set_txn (delete (Path (rw_collection c) key) (txn w)) w).

(** [*etcd.TxnResponse]. *)
Record TxnResponse : Type := { Succeeded : bool }.

(** [col.NewSTM(ctx, client, cb)]: the callback works on a copy of the
    store; the copy is committed when the callback returns nil and
    dropped when it returns an error. *)
Definition NewSTM (ctx : Context) (client : option EtcdClient)
  (cb : STM -> M (option error)) : M (option TxnResponse * option error) :=
  match client with
  | None => panic
  | Some _ =>
      let* w := get_world in
      let* _ := modify (set_txn (etcd w)) in
      let* err := cb stm_open in
      match err with
      | Some e => ret (None, Some e)
      | None =>
          let* w' := get_world in
          let* _ := modify (set_etcd (txn w')) in
          ret (Some {| Succeeded := true |}, None)
      end
  end.

End col.

(** Modelled from the spec: the [ppsdb] package is not among the sources.
    Section 6 names the two collections "Jobs" and "Pipelines". *)
Module ppsdb.

Definition Jobs (etcdClient : option EtcdClient) (etcdPrefix : string)
  : col.Collection :=
  col.NewCollection etcdClient etcdPrefix "jobs".

Definition Pipelines (etcdClient : option EtcdClient) (etcdPrefix : string)
  : col.Collection :=
  col.NewCollection etcdClient etcdPrefix "pipelines".

End ppsdb.

(** Modelled from the spec: the [ppsutil] package is not among the
    sources. Section 4.5: "validates the transition, and writes the new
    state plus reason. Valid transitions: [STARTING -> RUNNING ->
    {SUCCESS, FAILURE, KILLED}]; [RUNNING -> EGRESSING -> SUCCESS] when an
    egress step exists. Any other transition request fails with
    [InvalidTransition] and is not applied". *)
Module ppsutil.

Definition valid_transition (from to : pps.JobState) : bool :=
  match from, to with
  | pps.JOB_STARTING, pps.JOB_RUNNING => true
  | pps.JOB_RUNNING, pps.JOB_SUCCESS => true
  | pps.JOB_RUNNING, pps.JOB_FAILURE => true
  | pps.JOB_RUNNING, pps.JOB_KILLED => true
  | pps.JOB_RUNNING, pps.JOB_EGRESSING => true
  | pps.JOB_EGRESSING, pps.JOB_SUCCESS => true
  | _, _ => false
  end.

Definition with_state (j : pps.EtcdJobInfo) (state : pps.JobState)
  (reason : string) : pps.EtcdJobInfo :=
  {| pps.job_id := pps.job_id j; pps.job_pipeline := pps.job_pipeline j;
     pps.job_state := state; pps.job_reason := reason |}.

Definition UpdateJobState (pipelines jobs : col.ReadWriteCollection)
  (jobPtr : pps.EtcdJobInfo) (state : pps.JobState) (reason : string)
  : M (option error) :=
  if valid_transition (pps.job_state jobPtr) state then
    col.Put jobs (pps.job_id jobPtr) (VJob (with_state jobPtr state reason))
  else
    ret (Some (ErrInvalidTransition (pps.job_state jobPtr) state)).

End ppsutil.

(** Modelled from the spec: the [work] package is not among the sources.
    Section 3: a chunk has a "chunk index, datum range, lease owner, lease
    expiry, completion flag"; section 4.2: the master "writes chunk
    descriptors into a namespaced collection keyed by job+chunk index, and
    blocks until all chunks report completion"; a worker "claims one by
    writing a lease (owner identity + expiry) under a transaction that
    fails if another owner's lease is still valid, processes it, and on
    completion clears the lease and sets the completion flag under another
    transaction". *)
Module work.

Record Master : Type := {
  master_client : option EtcdClient;
  master_prefix : string;
  master_namespace : string
}.

Record Worker : Type := {
  worker_client : option EtcdClient;
  worker_prefix : string;
  worker_namespace : string
}.

Definition NewMaster (etcdClient : option EtcdClient)
  (etcdPrefix taskNamespace : string) : Master :=
  {| master_client := etcdClient; master_prefix := etcdPrefix;
     master_namespace := taskNamespace |}.

Definition NewWorker (etcdClient : option EtcdClient)
  (etcdPrefix taskNamespace : string) : Worker :=
  {| worker_client := etcdClient; worker_prefix := etcdPrefix;
     worker_namespace := taskNamespace |}.

Record Chunk : Type := {
  chunk_index : nat;
  datum_first : nat;
  datum_count : nat;
  lease_owner : option string;
  lease_expiry : Z;
  completed : bool
}.

(** What workers do to the chunks of one job, each under a transaction
    of its own; [now] is the time the transaction reads. *)
Inductive Event : Type :=
| Claim (worker : string) (index : nat) (now ttl : Z)
| Renew (worker : string) (index : nat) (now ttl : Z)
| Complete (worker : string) (index : nat).

(** The master's chunk descriptors for [n] chunks of [size] datums. *)
Fixpoint create (n size : nat) : gmap nat Chunk :=
  match n with
  | O => ∅
  | S k =>
      <[k := {| chunk_index := k; datum_first := k * size;
                datum_count := size; lease_owner := None;
                lease_expiry := 0; completed := false |}]> (create k size)
  end.

(** Another owner's lease on [c] is still valid at [now]. *)
Definition held_by_other (worker : string) (now : Z) (c : Chunk) : bool :=
  match lease_owner c with
  | Some o => negb (String.eqb o worker) && (now <? lease_expiry c)
  | None => false
  end.

Definition with_lease (c : Chunk) (owner : option string) (expiry : Z)
  (done : bool) : Chunk :=
  {| chunk_index := chunk_index c; datum_first := datum_first c;
     datum_count := datum_count c; lease_owner := owner;
     lease_expiry := expiry; completed := done |}.

(** One transaction; one that fails leaves the chunks as they were. *)
Definition step (q : gmap nat Chunk) (ev : Event) : gmap nat Chunk :=
  match ev with
  | Claim worker i now ttl =>
      match q !! i with
      | Some c =>
          if held_by_other worker now c then q
          else <[i := with_lease c (Some worker) (now + ttl) (completed c)]> q
      | None => q
      end
  | Renew worker i now ttl =>
      match q !! i with
      | Some c =>
          match lease_owner c with
          | Some o =>
              if String.eqb o worker && (now <? lease_expiry c)
              then <[i := with_lease c (Some worker) (now + ttl)
                            (completed c)]> q
              else q
          | None => q
          end
      | None => q
      end
  | Complete worker i =>
      match q !! i with
      | Some c =>
          match lease_owner c with
          | Some o =>
              if String.eqb o worker
              then <[i := with_lease c None 0 true]> q
              else q
          | None => q
          end
      | None => q
      end
  end.

Definition run (n size : nat) (trace : list Event) : gmap nat Chunk :=
  fold_left step trace (create n size).

(** What the master reads when it wakes up: the descriptor of each of
    the [n] chunks it wrote, and whether all of them are complete. *)
Definition all_complete (n : nat) (q : gmap nat Chunk) : bool :=
  forallb (fun i => match q !! i with
                    | Some c => completed c
                    | None => false
                    end) (seq 0 n).

(** The master's report after the workers' transactions of [trace]. *)
Definition reports_complete (n size : nat) (trace : list Event) : bool :=
  all_complete n (run n size trace).

(** The master's wait on chunks [q]: it looks at the chunks after each
    transaction and returns when all are complete, after so many
    transactions; it is still blocked when the trace ends before that. *)
Fixpoint wait_from (n : nat) (q : gmap nat Chunk) (trace : list Event)
  : option nat :=
  if all_complete n q then Some O
  else
    match trace with
    | [] => None
    | ev :: rest => option_map S (wait_from n (step q ev) rest)
    end.

Definition wait (n size : nat) (trace : list Event) : option nat :=
  wait_from n (create n size) trace.

End work.

Module client.

Record APIClient : Type := { address : string }.

End client.

(** Modelled from the spec: [workNamespace] is declared in driver.go,
    which is not among the sources. Section 6: the "namespace isolates
    one pipeline's tasks from others sharing the same store". It reads
    through the pointer it is given. *)
Definition workNamespace (pipelineInfo : option pps.PipelineInfo)
  : M string :=
  match pipelineInfo with
  | None => panic
  | Some p =>
      ret ("/pipeline-" +:+ pps.pipeline_name p +:+ "/v"
           +:+ pretty (pps.pipeline_version p))
  end.

(** ** The mock driver *)
Definition set_ctx (c : Context) (d : MockDriver) : MockDriver :=
  {| ctx := c; options := options d; etcdClient := etcdClient d;
     chunkCache := chunkCache d; chunkStatsCache := chunkStatsCache d |}.

Definition set_chunkCache (c : option cache.WorkerCache) (d : MockDriver)
  : MockDriver :=
  {| ctx := ctx d; options := options d; etcdClient := etcdClient d;
     chunkCache := c; chunkStatsCache := chunkStatsCache d |}.

Definition set_chunkStatsCache (c : option cache.WorkerCache)
  (d : MockDriver) : MockDriver :=
  {| ctx := ctx d; options := options d; etcdClient := etcdClient d;
     chunkCache := chunkCache d; chunkStatsCache := c |}.

(** [NewMockDriver] constructs a [MockDriver] using the specified fields. *)
Definition NewMockDriver (etcdClient : option EtcdClient) (userOptions : ptr)
  : M ptr :=
  let* options := new_options MockOptions.zero in
  let* u := load_options userOptions in
  let* _ := store_options options u in
  let* o := load_options options in
  let* _ := (if MockOptions.NumWorkers o =? 0
             then store_options options (MockOptions.set_NumWorkers 1 o)
             else ret tt) in
  let* o := load_options options in
  let* _ := (if MockOptions.NumShards o =? 0
             then store_options options (MockOptions.set_NumShards 1 o)
             else ret tt) in
  let* md := new_driver {| ctx := Background; options := options;
                           etcdClient := etcdClient; chunkCache := None;
                           chunkStatsCache := None |} in
  let* o := load_options options in
  let* _ := (if negb (String.eqb (MockOptions.HashtreePath o) "")
             then
               let* o := load_options options in
               let* d := load_driver md in
               let* _ := store_driver md
                 (set_chunkCache
                    (Some (cache.NewWorkerCache
                       (Filepath.Join [MockOptions.HashtreePath o; "chunk"])))
                    d) in
               let* o := load_options options in
               let* d := load_driver md in
               store_driver md
                 (set_chunkStatsCache
                    (Some (cache.NewWorkerCache
                       (Filepath.Join
                          [MockOptions.HashtreePath o; "chunkStats"])))
                    d)
             else ret tt) in
  ret md.

(** [WithCtx] clones the driver and sets the clone's context. *)
Definition WithCtx (md : ptr) (ctx : Context) : M ptr :=
  let* result := new_driver MockDriver_zero in
  let* d := load_driver md in
  let* _ := store_driver result d in
  let* r := load_driver result in
  let* _ := store_driver result (set_ctx ctx r) in
  ret result.

Definition Jobs (md : ptr) : M col.Collection :=
  let* d := load_driver md in
  let* d' := load_driver md in
  let* o := load_options (options d') in
  ret (ppsdb.Jobs (etcdClient d) (MockOptions.EtcdPrefix o)).

Definition Pipelines (md : ptr) : M col.Collection :=
  let* d := load_driver md in
  let* d' := load_driver md in
  let* o := load_options (options d') in
  ret (ppsdb.Pipelines (etcdClient d) (MockOptions.EtcdPrefix o)).

Definition NewTaskWorker (md : ptr) : M work.Worker :=
  let* d := load_driver md in
  let* d1 := load_driver md in
  let* o1 := load_options (options d1) in
  let* d2 := load_driver md in
  let* o2 := load_options (options d2) in
  let* ns := workNamespace (MockOptions.PipelineInfo o2) in
  ret (work.NewWorker (etcdClient d) (MockOptions.EtcdPrefix o1) ns).

Definition NewTaskMaster (md : ptr) : M work.Master :=
  let* d := load_driver md in
  let* d1 := load_driver md in
  let* o1 := load_options (options d1) in
  let* d2 := load_driver md in
  let* o2 := load_options (options d2) in
  let* ns := workNamespace (MockOptions.PipelineInfo o2) in
  ret (work.NewMaster (etcdClient d) (MockOptions.EtcdPrefix o1) ns).

Definition PipelineInfo (md : ptr) : M (option pps.PipelineInfo) :=
  let* d := load_driver md in
  let* o := load_options (options d) in
  ret (MockOptions.PipelineInfo o).

Definition ChunkCache (md : ptr) : M (option cache.WorkerCache) :=
  let* d := load_driver md in
  ret (chunkCache d).

Definition ChunkStatsCache (md : ptr) : M (option cache.WorkerCache) :=
  let* d := load_driver md in
  ret (chunkStatsCache d).

(** The function [WithDatumCache] defers for one cache directory: the
    directory is removed, and the removal's error becomes the result
    when there is none yet. *)
Definition remove_cache (path : string) (retErr : option error)
  : M (option error) :=
  let* err := os.RemoveAll path in
  match retErr with
  | None => ret err
  | Some _ => ret retErr
  end.

(** [WithDatumCache] calls the callback with two merge caches, one for
    datums and one for datum stats, whose lifetime is the callback's. *)
Definition WithDatumCache (md : ptr)
  (cb : hashtree.MergeCache -> hashtree.MergeCache -> M (option error))
  : M (option error) :=
  let* cacheID := uuid.NewWithoutDashes in
  let* d := load_driver md in
  let* o := load_options (options d) in
  let datumCachePath :=
    Filepath.Join [MockOptions.HashtreePath o; "datum"; cacheID] in
  let* d := load_driver md in
  let* o := load_options (options d) in
  let statsCachePath :=
    Filepath.Join [MockOptions.HashtreePath o; "datumStats"; cacheID] in
  let* err := os.MkdirAll datumCachePath 511 in
  match err with
  | Some e => ret (Some e)
  | None =>
      with_defer (remove_cache datumCachePath) None
        (let* err := os.MkdirAll statsCachePath 511 in
         match err with
         | Some e => ret (Some e)
         | None =>
             with_defer (remove_cache statsCachePath) None
               (let datumCache := hashtree.NewMergeCache datumCachePath in
                let statsCache := hashtree.NewMergeCache statsCachePath in
                cb datumCache statsCache)
         end)
  end.

Definition InputDir (md : ptr) : string := "/pfs".

Definition PachClient (md : ptr) : option client.APIClient := None.

(** [MockKubeWrapper] and the [KubeWrapper] interface it stands in for. *)
Module MockKubeWrapper.

Inductive t : Type :=
| mk.

Definition GetExpectedNumWorkers (mkw : t)
  (spec : option pps.ParallelismSpec) : Z * option error :=
  (1, None).

End MockKubeWrapper.

Definition NewMockKubeWrapper : MockKubeWrapper.t := MockKubeWrapper.mk.

Definition KubeWrapper (md : ptr) : MockKubeWrapper.t := NewMockKubeWrapper.

Definition GetExpectedNumWorkers (md : ptr) : M (Z * option error) :=
  let* d := load_driver md in
  let* o := load_options (options d) in
  ret (MockOptions.NumWorkers o, None).

(** [int64(x)] of an [int]: both are 64 bits wide. *)
Definition int64 (x : Z) : Z :=
  (x + 2 ^ 63) mod 2 ^ 64 - 2 ^ 63.

Definition NumShards (md : ptr) : M Z :=
  let* d := load_driver md in
  let* o := load_options (options d) in
  ret (int64 (MockOptions.NumShards o)).

(** [WithData] does nothing except call the given callback. *)
Definition WithData (md : ptr) (data : list common.Input)
  (inputTree : option hashtree.Ordered) (logger : logs.TaggedLogger)
  (cb : string -> ptr -> M (option error)) : M (ptr * option error) :=
  let* stats := new_stats pps.ProcessStats_zero in
  let* err := cb "" stats in
  ret (stats, err).

Definition WithActiveData (md : ptr) (inputs : list common.Input)
  (dir : string) (cb : M (option error)) : M (option error) :=
  cb.

Definition RunUserCode (md : ptr) (logger : logs.TaggedLogger)
  (environ : list string) (stats : ptr) (timeout : option Z)
  : M (option error) :=
  ret None.

Definition RunUserErrorHandlingCode (md : ptr) (logger : logs.TaggedLogger)
  (environ : list string) (stats : ptr) (timeout : option Z)
  : M (option error) :=
  ret None.

Definition UploadOutput (md : ptr) (dir : string)
  (logger : logs.TaggedLogger) (inputs : list common.Input) (stats : ptr)
  (tree : option hashtree.Ordered) : M (list Byte.byte * option error) :=
  ret ([], None).

(** [NewSTM] calls the callback under a new transaction of the driver's
    client. *)
Definition NewSTM (md : ptr) (cb : col.STM -> M (option error))
  : M (option col.TxnResponse * option error) :=
  let* d := load_driver md in
  let* d' := load_driver md in
  col.NewSTM (ctx d) (etcdClient d') cb.

(** [DeleteJob] deletes the job's entry; [jobPtr] is read through. *)
Definition DeleteJob (md : ptr) (stm : col.STM)
  (jobPtr : option pps.EtcdJobInfo) : M (option error) :=
  let* jobs := Jobs md in
  match jobPtr with
  | None => panic
  | Some j => col.Delete (col.ReadWrite jobs stm) (pps.job_id j)
  end.

(** [UpdateJobState] updates the given job's state in the store. *)
Definition UpdateJobState (md : ptr) (jobID : string)
  (state : pps.JobState) (reason : string) : M (option error) :=
  let* r := NewSTM md (fun stm =>
    let jobPtr := pps.EtcdJobInfo_zero in
    let* jobs := Jobs md in
    let* got := col.Get (col.ReadWrite jobs stm) jobID jobPtr in
    match got.1 with
    | Some err => ret (Some err)
    | None =>
        let jobPtr := got.2 in
        let* pipelines := Pipelines md in
        let* jobs := Jobs md in
        ppsutil.UpdateJobState (col.ReadWrite pipelines stm)
          (col.ReadWrite jobs stm) jobPtr state reason
    end) in
  ret r.2.

Definition ReportUploadStats (md : ptr) (start : Z) (stats : ptr)
  (logger : logs.TaggedLogger) : M unit :=
  ret tt.

(** Modelled from the spec: the [Driver] interface is declared in
    driver.go, which is not among the sources. Section 9: "define the
    Driver as a set of required operations (capability interface)".
    The operations are those of sections 4.5 ("[WithData(datums,
    inputTree, logger, cb) -> (ProcessStats, error)]", "[RunUserCode(logger,
    command, stats, timeout) -> error]", "[RunUserErrorHandlingCode(...)]",
    "[UploadOutput(dir, logger, inputs, stats, tree) -> (objectRef,
    error)]", "[UpdateJobState(jobID, newState, reason) -> error]",
    "[DeleteJob(jobPtr) -> error]", the last within the transaction
    of section 4.1), the collections, the transaction primitive and the
    task queue of section 6, the caches of sections 4.3 and 4.4, and the
    accessors; what each has to do is [Contract], further down.
    [var _ Driver = &MockDriver{}] is the instance below. *)
Module Driver.

(** The [KubeWrapper] interface, as the value a driver hands out. *)
Record Kube : Type := {
  Kube_GetExpectedNumWorkers :
    option pps.ParallelismSpec -> Z * option error
}.

Class t (D : Type) : Type := {
  PachClient : D -> option client.APIClient;
  KubeWrapper : D -> Kube;
  Jobs : D -> M col.Collection;
  Pipelines : D -> M col.Collection;
  NewTaskWorker : D -> M work.Worker;
  NewTaskMaster : D -> M work.Master;
  PipelineInfo : D -> M (option pps.PipelineInfo);
  InputDir : D -> string;
  GetExpectedNumWorkers : D -> M (Z * option error);
  NumShards : D -> M Z;
  WithCtx : D -> Context -> M D;
  WithData :
    D -> list common.Input -> option hashtree.Ordered ->
    logs.TaggedLogger -> (string -> ptr -> M (option error)) ->
    M (ptr * option error);
  WithActiveData :
    D -> list common.Input -> string -> M (option error) ->
    M (option error);
  RunUserCode :
    D -> logs.TaggedLogger -> list string -> ptr -> option Z ->
    M (option error);
  RunUserErrorHandlingCode :
    D -> logs.TaggedLogger -> list string -> ptr -> option Z ->
    M (option error);
  DeleteJob : D -> col.STM -> option pps.EtcdJobInfo -> M (option error);
  UpdateJobState :
    D -> string -> pps.JobState -> string -> M (option error);
  UploadOutput :
    D -> string -> logs.TaggedLogger -> list common.Input -> ptr ->
    option hashtree.Ordered -> M (list Byte.byte * option error);
  ReportUploadStats : D -> Z -> ptr -> logs.TaggedLogger -> M unit;
  NewSTM :
    D -> (col.STM -> M (option error)) ->
    M (option col.TxnResponse * option error);
  ChunkCache : D -> M (option cache.WorkerCache);
  ChunkStatsCache : D -> M (option cache.WorkerCache);
  WithDatumCache :
    D ->
    (hashtree.MergeCache -> hashtree.MergeCache -> M (option error)) ->
    M (option error)
}.

End Driver.


(** Modelled from the spec: the merge cache's operations are in the
    [hashtree] package, which is not among the sources. Section 4.4:
    "[NewForRun(id) -> handle]; [Put(handle, ordinal, partialTree)];
    [Merge(handle) -> finalTree]; [Destroy(handle)]"; an entry's "key =
    datum sequence position within a job run"; "[Merge] combines all
    stored partial trees into one ordered filesystem tree; ordering is by
    ordinal". The way two trees combine is left open. *)
Module MergeCache.

Section Contract.

Context {Tree : Type} (combine : Tree -> Tree -> Tree) (empty : Tree).

(** A run's handle: its identifier and the entries in the order they
    were put. *)
Record handle : Type := {
  run_id : string;
  entries : list (nat * Tree)
}.

Definition NewForRun (id : string) : handle :=
  {| run_id := id; entries := [] |}.

(** An ordinal holds one tree: a second [Put] replaces the first. *)
Definition Put (h : handle) (ordinal : nat) (partialTree : Tree) : handle :=
  {| run_id := run_id h;
     entries :=
       filter (fun e => e.1 ≠ ordinal) (entries h)
       ++ [(ordinal, partialTree)] |}.

Fixpoint insert_by_ordinal (e : nat * Tree) (l : list (nat * Tree))
  : list (nat * Tree) :=
  match l with
  | [] => [e]
  | x :: r =>
      if (e.1 <=? x.1)%nat then e :: l else x :: insert_by_ordinal e r
  end.

(** The entries in the order of their ordinals. *)
Definition by_ordinal (l : list (nat * Tree)) : list (nat * Tree) :=
  foldr insert_by_ordinal [] l.

Definition Merge (h : handle) : Tree :=
  fold_left combine (map snd (by_ordinal (entries h))) empty.

Definition Destroy (h : handle) : handle :=
  {| run_id := run_id h; entries := [] |}.

(** A run that puts the given partial trees one after the other. *)
Definition put_all (id : string) (partials : list (nat * Tree)) : handle :=
  fold_left (fun h e => Put h e.1 e.2) partials (NewForRun id).

End Contract.

End MergeCache.

(** ** Reading the heap and the disk in statements *)
Definition options_at (w : World) (p : ptr) : option MockOptions.t :=
  match p with
  | nil => None
  | addr a => heap_options w !! a
  end.

Definition driver_at (w : World) (p : ptr) : option MockDriver :=
  match p with
  | nil => None
  | addr a => heap_drivers w !! a
  end.

Definition stats_at (w : World) (p : ptr) : option pps.ProcessStats :=
  match p with
  | nil => None
  | addr a => heap_stats w !! a
  end.

(** Nothing is at [dir] or below it. *)
Definition gone (w : World) (dir : string) : Prop :=
  forall q, os.under dir q = true -> disk w !! q = None.

(** A world with nothing on the heap, an empty disk without faults, an
    empty store, and run identifiers that count up. *)
Definition world0 : World :=
  {| heap_options := []; heap_drivers := []; heap_stats := [];
     disk := ∅;
     mkdir_fault := fun _ => None; remove_fault := fun _ => None;
     uuid_source := fun n => "run" +:+ pretty n; uuid_drawn := O;
     etcd := ∅; txn := ∅ |}.

(** What [NewMockDriver] leaves on the heap for the caller's options
    [u]: the private copy with its defaults, and the driver. *)
Definition with_defaults (u : MockOptions.t) : MockOptions.t :=
  let o := if MockOptions.NumWorkers u =? 0
           then MockOptions.set_NumWorkers 1 u else u in
  if MockOptions.NumShards o =? 0 then MockOptions.set_NumShards 1 o else o.

Definition constructed (etcdClient : option EtcdClient) (options : ptr)
  (o : MockOptions.t) : MockDriver :=
  if String.eqb (MockOptions.HashtreePath o) "" then
    {| ctx := Background; options := options; etcdClient := etcdClient;
       chunkCache := None; chunkStatsCache := None |}
  else
    {| ctx := Background; options := options; etcdClient := etcdClient;
       chunkCache :=
         Some (cache.NewWorkerCache
                 (Filepath.Join [MockOptions.HashtreePath o; "chunk"]));
       chunkStatsCache :=
         Some (cache.NewWorkerCache
                 (Filepath.Join [MockOptions.HashtreePath o; "chunkStats"]))
    |}.

(** A caller's options on the heap of an otherwise empty world. *)
Definition world_with_options (u : MockOptions.t) : World :=
  set_heap_options [u] world0.

Definition sample_options : MockOptions.t :=
  {| MockOptions.NumWorkers := 0; MockOptions.NumShards := 3;
     MockOptions.EtcdPrefix := "test";
     MockOptions.PipelineInfo :=
       Some {| pps.pipeline_name := "edges"; pps.pipeline_version := 1 |};
     MockOptions.HashtreePath := "/tmp/ht" |}.

Definition sample_driver : MockDriver :=
  constructed (Some 7%nat) (addr 0) sample_options.

(** A driver and its options on the heap of an otherwise empty world. *)
Definition world_with_driver : World :=
  set_heap_drivers [sample_driver] (world_with_options sample_options).

(** A callback that reports the directory it was called with. *)
Definition report_dir (dir : string) (stats : ptr) : M (option error) :=
  ret (Some (ErrOther dir)).

Definition sample_logger : logs.TaggedLogger := {| logs.tags := ["test"] |}.

(** Options with a negative number of workers and of shards. *)
Definition negative_options : MockOptions.t :=
  {| MockOptions.NumWorkers := -1; MockOptions.NumShards := -2;
     MockOptions.EtcdPrefix := "test";
     MockOptions.PipelineInfo := None;
     MockOptions.HashtreePath := "" |}.

(** The key of job [jobID] in the store of a driver with options [o]. *)
Definition job_key (d : MockDriver) (o : MockOptions.t) (jobID : string)
  : string * string :=
  col.Path (ppsdb.Jobs (etcdClient d) (MockOptions.EtcdPrefix o)) jobID.

Definition sample_job (state : pps.JobState) : pps.EtcdJobInfo :=
  {| pps.job_id := "job1"; pps.job_pipeline := "edges";
     pps.job_state := state; pps.job_reason := "" |}.

(** The sample driver with one job in the store. *)
Definition world_with_job (state : pps.JobState) : World :=
  set_etcd
    {[ job_key sample_driver sample_options "job1" := VJob (sample_job state) ]}
    world_with_driver.

(** The transitions section 4.5 lists, as pairs. *)
Definition listed_transitions : list (pps.JobState * pps.JobState) :=
  [ (pps.JOB_STARTING, pps.JOB_RUNNING);
    (pps.JOB_RUNNING, pps.JOB_SUCCESS);
    (pps.JOB_RUNNING, pps.JOB_FAILURE);
    (pps.JOB_RUNNING, pps.JOB_KILLED);
    (pps.JOB_RUNNING, pps.JOB_EGRESSING);
    (pps.JOB_EGRESSING, pps.JOB_SUCCESS) ].

(** Three partial trees, and what they combine to when trees are
    combined by appending them. *)
Definition tree_A : hashtree.Ordered := [("/a", "h1")].
Definition tree_B : hashtree.Ordered := [("/b", "h2")].
Definition tree_C : hashtree.Ordered := [("/c", "h3")].

Definition merge_trees (id : string)
  (partials : list (nat * hashtree.Ordered)) : hashtree.Ordered :=
  MergeCache.Merge app [] (MergeCache.put_all id partials).

(** ** The run of [WithDatumCache] in statements *)

(** The identifier the next run draws, and its two cache directories. *)
Definition next_run_id (w : World) : string :=
  uuid_source w (uuid_drawn w).

Definition datum_dir (o : MockOptions.t) (id : string) : string :=
  Filepath.Join [MockOptions.HashtreePath o; "datum"; id].

Definition stats_dir (o : MockOptions.t) (id : string) : string :=
  Filepath.Join [MockOptions.HashtreePath o; "datumStats"; id].

(** The identifier of the next run is fresh: it is a plain path element,
    and nothing is stored at or below the run's two directories. *)
Definition fresh_run (w : World) (o : MockOptions.t) : Prop :=
  Filepath.plain (next_run_id w) = true
  /\ gone w (datum_dir o (next_run_id w))
  /\ gone w (stats_dir o (next_run_id w)).

(** [WithDatumCache] from the point where the two paths are known. *)
Definition with_cache_dirs (datumCachePath statsCachePath : string)
  (cb : hashtree.MergeCache -> hashtree.MergeCache -> M (option error))
  : M (option error) :=
  let* err := os.MkdirAll datumCachePath 511 in
  match err with
  | Some e => ret (Some e)
  | None =>
      with_defer (remove_cache datumCachePath) None
        (let* err := os.MkdirAll statsCachePath 511 in
         match err with
         | Some e => ret (Some e)
         | None =>
             with_defer (remove_cache statsCachePath) None
               (cb (hashtree.NewMergeCache datumCachePath)
                   (hashtree.NewMergeCache statsCachePath))
         end)
  end.

Definition is_dir (w : World) (path : string) : bool :=
  match disk w !! path with
  | Some Dir => true
  | _ => false
  end.

(** The sample world with a disk that refuses to remove [path]. *)
Definition world_keeping (path : string) : World :=
  {| heap_options := heap_options world_with_driver;
     heap_drivers := heap_drivers world_with_driver;
     heap_stats := [];
     disk := ∅;
     mkdir_fault := fun _ => None;
     remove_fault := fun p =>
       if String.eqb p path then Some (PathError "unlinkat" p "EACCES")
       else None;
     uuid_source := uuid_source world0; uuid_drawn := O;
     etcd := ∅; txn := ∅ |}.

(** Callbacks that do nothing: one succeeds, one fails. *)
Definition cb_ok (datumCache statsCache : hashtree.MergeCache)
  : M (option error) :=
  ret None.

Definition cb_fails (datumCache statsCache : hashtree.MergeCache)
  : M (option error) :=
  ret (Some (ErrOther "datum failed")).

(** ** Further worlds for statements *)

(** The world in which [WithDatumCache] calls its callback: the one the
    two calls of [os.MkdirAll] leave when both succeed. There is none
    when one of them fails, and the callback is not called then. *)
Definition callback_world (o : MockOptions.t) (w : World) : option World :=
  let id := next_run_id w in
  match os.MkdirAll (datum_dir o id) 511
          (set_uuid_drawn (S (uuid_drawn w)) w) with
  | Returned None w1 =>
      match os.MkdirAll (stats_dir o id) 511 w1 with
      | Returned None w2 => Some w2
      | _ => None
      end
  | _ => None
  end.

(** Options without a storage root, and a driver made from them. *)
Definition rootless_options : MockOptions.t :=
  {| MockOptions.NumWorkers := 2; MockOptions.NumShards := 1;
     MockOptions.EtcdPrefix := "test";
     MockOptions.PipelineInfo := None;
     MockOptions.HashtreePath := "" |}.

Definition world_rootless : World :=
  set_heap_drivers [constructed (Some 7%nat) (addr 0) rootless_options]
    (world_with_options rootless_options).

(** The sample world with a file at [path]. *)
Definition world_with_file (path : string) : World :=
  set_disk {[ path := File ]} world_with_driver.

(** Some other options a caller may write over its own. *)
Definition other_options : MockOptions.t :=
  {| MockOptions.NumWorkers := 9; MockOptions.NumShards := 8;
     MockOptions.EtcdPrefix := "other";
     MockOptions.PipelineInfo := None;
     MockOptions.HashtreePath := "/elsewhere" |}.

(** A callback that panics. *)
Definition cb_panics (datumCache statsCache : hashtree.MergeCache)
  : M (option error) :=
  panic.

(** ** The contract of a [Driver]

    Modelled from the spec: what the operations of a driver have to do,
    in the words of sections 4.1, 4.4, 4.5, 6 and 9, stated for any type
    that provides the operations of [Driver.t]. A test driver has "no
    real input loader, no real subprocess execution" (section 9) and
    "implements each operation as a no-op or in-memory stand-in"; the
    operations on the store are those of any driver. *)
Module Contract.

Section Laws.

Context {D : Type} {ops : Driver.t D}.

Implicit Types (d : D) (w : World) (jobs pipelines : col.Collection).













End Laws.

End Contract.

(** * Properties *)

(** ** The heap *)

(** Reads of a world that a setter has just changed. *)
Ltac wsimpl :=
  cbn [heap_options heap_drivers heap_stats disk mkdir_fault remove_fault
       uuid_source uuid_drawn etcd txn
       set_heap_options set_heap_drivers set_heap_stats set_disk
       set_uuid_drawn set_etcd set_txn world_of negb] in *.

(** One step of a call: the binds, and the heap primitives. *)
Ltac go :=
  unfold bind, ret, panic, get_world, modify,
    new_options, new_driver, new_stats,
    load_options, load_driver, load_stats,
    store_options, store_driver, store_stats; wsimpl.

Lemma load_options_at w p o :
  options_at w p = Some o -> load_options p w = Returned o w.
Proof. destruct p as [|a]; simpl; [done|]. by intros ->. Qed.

Lemma load_driver_at w p d :
  driver_at w p = Some d -> load_driver p w = Returned d w.
Proof. destruct p as [|a]; simpl; [done|]. by intros ->. Qed.

Lemma lookup_snoc_old {A : Type} (l : list A) (x y : A) (i : nat) :
  l !! i = Some y -> (l ++ [x]) !! i = Some y.
Proof. intros H. by apply lookup_app_l_Some. Qed.

Lemma lookup_snoc_new {A : Type} (l : list A) (x : A) :
  (l ++ [x]) !! length l = Some x.
Proof. rewrite lookup_app_r by lia. by rewrite Nat.sub_diag. Qed.

Lemma insert_snoc {A : Type} (l : list A) (x y : A) :
  <[length l := y]> (l ++ [x]) = l ++ [y].
Proof. rewrite insert_app_r_alt by lia. by rewrite Nat.sub_diag. Qed.

(** ** [WithCtx] *)

(** C10: [WithCtx] returns a driver at a new address that holds the
    receiver's options pointer, client and caches with the context it was
    given; the receiver and every other object stay as they were. *)
Theorem WithCtx_clones (w : World) (md : ptr) (d : MockDriver) (c : Context) :
  driver_at w md = Some d ->
  exists result w',
    WithCtx md c w = Returned result w'
    /\ result <> md
    /\ driver_at w result = None
    /\ (exists r, driver_at w' result = Some r
         /\ ctx r = c
         /\ options r = options d
         /\ etcdClient r = etcdClient d
         /\ chunkCache r = chunkCache d
         /\ chunkStatsCache r = chunkStatsCache d)
    /\ driver_at w' md = Some d
    /\ (forall p x, driver_at w p = Some x -> driver_at w' p = Some x)
    /\ w' = set_heap_drivers (heap_drivers w ++ [set_ctx c d]) w.
Proof.
  intros Hd.
  destruct md as [|a]; [done|]. simpl in Hd.
  exists (addr (length (heap_drivers w))).
  exists (set_heap_drivers (heap_drivers w ++ [set_ctx c d]) w). split.
  - unfold WithCtx. go.
    rewrite (lookup_snoc_old _ _ _ _ Hd). wsimpl.
    rewrite lookup_snoc_new. wsimpl.
    rewrite insert_snoc, lookup_snoc_new. wsimpl.
    rewrite lookup_snoc_new. wsimpl.
    rewrite insert_snoc. reflexivity.
  - assert (Hlt : (a < length (heap_drivers w))%nat)
      by (eapply lookup_lt_Some; eauto).
    split; [intros [= E]; lia|].
    split; [simpl; apply lookup_ge_None; lia|].
    split.
    { exists (set_ctx c d). simpl. by rewrite lookup_snoc_new. }
    split; [simpl; by apply lookup_snoc_old|].
    split; [|reflexivity].
    intros [|p] x; simpl; [done|]. apply lookup_snoc_old.
Qed.

Lemma WithCtx_clones_witness :
  driver_at world_with_driver (addr 0) = Some sample_driver
  /\ exists result w',
       WithCtx (addr 0) (Cancelled Background) world_with_driver
       = Returned result w'
       /\ result <> addr 0
       /\ driver_at w' (addr 0) = Some sample_driver.
Proof.
  split; [reflexivity|].
  destruct (WithCtx_clones world_with_driver (addr 0) sample_driver
              (Cancelled Background) eq_refl)
    as (result & w' & Hrun & Hne & _ & _ & Hmd & _).
  exists result, w'. auto.
Defined.

(** ** [NewMockDriver] *)
Lemma with_defaults_HashtreePath u :
  MockOptions.HashtreePath (with_defaults u) = MockOptions.HashtreePath u.
Proof.
  unfold with_defaults.
  destruct (MockOptions.NumWorkers u =? 0); simpl;
    destruct (MockOptions.NumShards _ =? 0); reflexivity.
Qed.

(** The constructor's outcome: a copy of the caller's options with the
    defaults applied is appended to the heap, then the driver. *)
Lemma NewMockDriver_returns (w : World) (c : option EtcdClient) (p : ptr)
  (u : MockOptions.t) :
  options_at w p = Some u ->
  NewMockDriver c p w
  = Returned (addr (length (heap_drivers w)))
      (set_heap_drivers
         (heap_drivers w
          ++ [constructed c (addr (length (heap_options w)))
                (with_defaults u)])
         (set_heap_options (heap_options w ++ [with_defaults u]) w)).
Proof.
  intros Hu. destruct p as [|a]; [done|]. simpl in Hu.
  unfold NewMockDriver, constructed. rewrite with_defaults_HashtreePath.
  unfold with_defaults. go.
  rewrite (lookup_snoc_old _ _ _ _ Hu). wsimpl.
  rewrite lookup_snoc_new. wsimpl.
  rewrite insert_snoc, lookup_snoc_new. wsimpl.
  destruct (MockOptions.NumWorkers u =? 0) eqn:Hw; wsimpl;
    repeat (rewrite ?lookup_snoc_new, ?insert_snoc; wsimpl);
    destruct (MockOptions.NumShards _ =? 0) eqn:Hs; wsimpl;
    repeat (rewrite ?lookup_snoc_new, ?insert_snoc; wsimpl);
    cbn [MockOptions.HashtreePath MockOptions.set_NumWorkers
         MockOptions.set_NumShards];
    destruct (String.eqb (MockOptions.HashtreePath u) "") eqn:Hh; wsimpl;
    repeat (rewrite ?lookup_snoc_new, ?insert_snoc; wsimpl);
    reflexivity.
Qed.

Lemma GetExpectedNumWorkers_at (w : World) (md : ptr) (d : MockDriver)
  (o : MockOptions.t) :
  driver_at w md = Some d -> options_at w (options d) = Some o ->
  GetExpectedNumWorkers md w = Returned (MockOptions.NumWorkers o, None) w.
Proof.
  intros Hd Ho. unfold GetExpectedNumWorkers, bind, ret.
  rewrite (load_driver_at _ _ _ Hd). by rewrite (load_options_at _ _ _ Ho).
Qed.

Lemma NumShards_at (w : World) (md : ptr) (d : MockDriver)
  (o : MockOptions.t) :
  driver_at w md = Some d -> options_at w (options d) = Some o ->
  NumShards md w = Returned (int64 (MockOptions.NumShards o)) w.
Proof.
  intros Hd Ho. unfold NumShards, bind, ret.
  rewrite (load_driver_at _ _ _ Hd). by rewrite (load_options_at _ _ _ Ho).
Qed.

Lemma int64_in_range (x : Z) : - 2 ^ 63 <= x < 2 ^ 63 -> int64 x = x.
Proof. intros H. unfold int64. rewrite Z.mod_small; lia. Qed.

Lemma constructed_options c p o : options (constructed c p o) = p.
Proof. unfold constructed. by destruct (String.eqb _ _). Qed.

(** C8: the driver [NewMockDriver] constructs has nil chunk caches
    exactly when the options' [HashtreePath] is empty. *)
Theorem ChunkCache_nil_iff_no_HashtreePath (w : World)
  (c : option EtcdClient) (p : ptr) (u : MockOptions.t) :
  options_at w p = Some u ->
  exists md w',
    NewMockDriver c p w = Returned md w'
    /\ exists cc cs,
         ChunkCache md w' = Returned cc w'
         /\ ChunkStatsCache md w' = Returned cs w'
         /\ (cc = None <-> MockOptions.HashtreePath u = "")
         /\ (cs = None <-> MockOptions.HashtreePath u = "").
Proof.
  intros Hu. eexists _, _. split; [by apply NewMockDriver_returns|].
  unfold ChunkCache, ChunkStatsCache. go.
  rewrite lookup_snoc_new. eexists _, _. split; [reflexivity|].
  split; [reflexivity|].
  unfold constructed. rewrite with_defaults_HashtreePath.
  destruct (String.eqb_spec (MockOptions.HashtreePath u) "") as [E|E];
    simpl; split; split; done.
Qed.

Lemma ChunkCache_nil_iff_no_HashtreePath_witness :
  options_at (world_with_options sample_options) (addr 0)
  = Some sample_options
  /\ exists md w',
       NewMockDriver None (addr 0) (world_with_options sample_options)
       = Returned md w'
       /\ ChunkCache md w'
          = Returned (Some (cache.NewWorkerCache "/tmp/ht/chunk")) w'.
Proof.
  split; [reflexivity|].
  destruct (ChunkCache_nil_iff_no_HashtreePath
              (world_with_options sample_options) None (addr 0)
              sample_options eq_refl)
    as (md & w' & Hrun & cc & cs & Hcc & _ & _ & _).
  exists md, w'. split; [exact Hrun|].
  rewrite NewMockDriver_returns with (u := sample_options) in Hrun
    by reflexivity.
  injection Hrun as <- <-. reflexivity.
Defined.

(** C9, as stated, fails: a negative [NumWorkers] is not a zero one, so it
    is not defaulted, and [GetExpectedNumWorkers] returns it. *)
Lemma GetExpectedNumWorkers_negative :
  exists md w',
    NewMockDriver None (addr 0) (world_with_options negative_options)
    = Returned md w'
    /\ GetExpectedNumWorkers md w' = Returned (-1, None) w'
    /\ NumShards md w' = Returned (-2) w'
    /\ ~ (1 <= -1).
Proof.
  eexists _, _. split; [by apply NewMockDriver_returns|].
  split; [reflexivity|]. split; [reflexivity|]. lia.
Qed.

(** C9, amended: [NewMockDriver] works on a copy of the caller's options
    at a new address and leaves the caller's options, and every other
    options object, as they were. A zero [NumWorkers] or [NumShards]
    becomes 1 and any other value is kept, so [GetExpectedNumWorkers]
    and [NumShards] return at least 1 when the caller's value is not
    negative. *)
Theorem NewMockDriver_copies_options (w : World) (c : option EtcdClient)
  (p : ptr) (u : MockOptions.t) :
  options_at w p = Some u ->
  exists md w' d,
    NewMockDriver c p w = Returned md w'
    /\ options_at w' p = Some u
    /\ (forall q x, options_at w q = Some x -> options_at w' q = Some x)
    /\ driver_at w' md = Some d
    /\ options d <> p
    /\ options_at w (options d) = None
    /\ options_at w' (options d) = Some (with_defaults u)
    /\ GetExpectedNumWorkers md w'
       = Returned (if MockOptions.NumWorkers u =? 0 then 1
                   else MockOptions.NumWorkers u, None) w'
    /\ NumShards md w'
       = Returned (int64 (if MockOptions.NumShards u =? 0 then 1
                          else MockOptions.NumShards u)) w'
    /\ (0 <= MockOptions.NumWorkers u ->
        1 <= (if MockOptions.NumWorkers u =? 0 then 1
              else MockOptions.NumWorkers u))
    /\ (0 <= MockOptions.NumShards u < 2 ^ 63 ->
        1 <= int64 (if MockOptions.NumShards u =? 0 then 1
                    else MockOptions.NumShards u)).
Proof.
  intros Hu.
  eexists _, _, _. split; [by apply NewMockDriver_returns|].
  assert (Hlt : exists a, p = addr a /\ (a < length (heap_options w))%nat).
  { destruct p as [|a]; [done|]. exists a. split; [done|].
    by eapply lookup_lt_Some. }
  destruct Hlt as (a & -> & Hlt).
  assert (Hnew : options_at
            (set_heap_drivers
               (heap_drivers w
                ++ [constructed c (addr (length (heap_options w)))
                      (with_defaults u)])
               (set_heap_options (heap_options w ++ [with_defaults u]) w))
            (addr (length (heap_options w))) = Some (with_defaults u)).
  { simpl. apply lookup_snoc_new. }
  split; [simpl; by apply lookup_snoc_old|].
  split.
  { intros [|q] x; simpl; [done|]. apply lookup_snoc_old. }
  split; [simpl; apply lookup_snoc_new|].
  rewrite constructed_options.
  split; [intros [= E]; lia|].
  split; [simpl; apply lookup_ge_None; lia|].
  split; [exact Hnew|].
  split.
  { erewrite GetExpectedNumWorkers_at;
      [|simpl; apply lookup_snoc_new|rewrite constructed_options; exact Hnew].
    unfold with_defaults.
    destruct (MockOptions.NumWorkers u =? 0) eqn:Hw; simpl;
      destruct (MockOptions.NumShards u =? 0); simpl; by rewrite ?Hw. }
  split.
  { erewrite NumShards_at;
      [|simpl; apply lookup_snoc_new|rewrite constructed_options; exact Hnew].
    unfold with_defaults.
    destruct (MockOptions.NumWorkers u =? 0); simpl;
      destruct (MockOptions.NumShards u =? 0) eqn:Hs; simpl;
      by rewrite ?Hs. }
  split.
  - intros H. destruct (Z.eqb_spec (MockOptions.NumWorkers u) 0); lia.
  - intros H. rewrite int64_in_range;
      destruct (Z.eqb_spec (MockOptions.NumShards u) 0); lia.
Qed.

Lemma NewMockDriver_copies_options_witness :
  options_at (world_with_options sample_options) (addr 0)
  = Some sample_options
  /\ exists md w',
       NewMockDriver None (addr 0) (world_with_options sample_options)
       = Returned md w'
       /\ options_at w' (addr 0) = Some sample_options
       /\ GetExpectedNumWorkers md w' = Returned (1, None) w'
       /\ NumShards md w' = Returned 3 w'.
Proof.
  split; [reflexivity|].
  destruct (NewMockDriver_copies_options
              (world_with_options sample_options) None (addr 0)
              sample_options eq_refl)
    as (md & w' & d & Hrun & Hp & _ & _ & _ & _ & _ & Hn & Hs & _).
  exists md, w'. auto.
Defined.

(** ** [WithData] *)

(** C3, as stated, fails: the callback is not called with the driver's
    input directory ["/pfs"] but with the empty string. *)
Lemma WithData_not_InputDir :
  let w1 := set_heap_stats [pps.ProcessStats_zero] world_with_driver in
  WithData (addr 0) [] None sample_logger report_dir world_with_driver
  = Returned (addr 0, Some (ErrOther "")) w1
  /\ report_dir (InputDir (addr 0)) (addr 0) w1
     = Returned (Some (ErrOther "/pfs")) w1.
Proof. split; reflexivity. Qed.

(** C3, amended: [WithData] allocates a zero [ProcessStats], calls the
    callback with the empty string as its directory and the new stats,
    and returns the stats pointer with the callback's error; when the
    callback panics, so does [WithData]. *)
Theorem WithData_calls_cb (md : ptr) (data : list common.Input)
  (inputTree : option hashtree.Ordered) (logger : logs.TaggedLogger)
  (cb : string -> ptr -> M (option error)) (w : World) :
  let stats := addr (length (heap_stats w)) in
  let w1 := set_heap_stats (heap_stats w ++ [pps.ProcessStats_zero]) w in
  stats_at w stats = None
  /\ stats_at w1 stats = Some pps.ProcessStats_zero
  /\ WithData md data inputTree logger cb w
     = match cb "" stats w1 with
       | Returned err w' => Returned (stats, err) w'
       | Panicked w' => Panicked w'
       end.
Proof.
  simpl. split; [apply lookup_ge_None; lia|].
  split; [apply lookup_snoc_new|].
  unfold WithData. go. by destruct (cb _ _ _).
Qed.

(** ** The store *)
Lemma Jobs_at (w : World) (md : ptr) (d : MockDriver) (o : MockOptions.t) :
  driver_at w md = Some d -> options_at w (options d) = Some o ->
  Jobs md w
  = Returned (ppsdb.Jobs (etcdClient d) (MockOptions.EtcdPrefix o)) w.
Proof.
  intros Hd Ho. unfold Jobs, bind, ret.
  rewrite !(load_driver_at _ _ _ Hd). by rewrite (load_options_at _ _ _ Ho).
Qed.

Lemma Pipelines_at (w : World) (md : ptr) (d : MockDriver)
  (o : MockOptions.t) :
  driver_at w md = Some d -> options_at w (options d) = Some o ->
  Pipelines md w
  = Returned (ppsdb.Pipelines (etcdClient d) (MockOptions.EtcdPrefix o)) w.
Proof.
  intros Hd Ho. unfold Pipelines, bind, ret.
  rewrite !(load_driver_at _ _ _ Hd). by rewrite (load_options_at _ _ _ Ho).
Qed.

(** A transaction of a driver with a client: the callback runs on a copy
    of the store, which is committed when it returns nil. *)
Lemma NewSTM_at (w : World) (md : ptr) (d : MockDriver) (c : EtcdClient)
  (cb : col.STM -> M (option error)) :
  driver_at w md = Some d -> etcdClient d = Some c ->
  NewSTM md cb w
  = match cb col.stm_open (set_txn (etcd w) w) with
    | Returned None w' =>
        Returned (Some {| col.Succeeded := true |}, None)
                 (set_etcd (txn w') w')
    | Returned (Some e) w' => Returned (None, Some e) w'
    | Panicked w' => Panicked w'
    end.
Proof.
  intros Hd Hc. unfold NewSTM, bind.
  rewrite !(load_driver_at _ _ _ Hd). rewrite Hc.
  unfold col.NewSTM, bind, get_world, modify, ret.
  destruct (cb col.stm_open (set_txn (etcd w) w)) as [[e|] w'|w'];
    reflexivity.
Qed.

(** The outcome of [UpdateJobState] on a stored job: a valid transition
    is committed, any other leaves the store as it was. *)
Lemma UpdateJobState_returns (w : World) (md : ptr) (d : MockDriver)
  (o : MockOptions.t) (c : EtcdClient) (jobID : string)
  (j : pps.EtcdJobInfo) (state : pps.JobState) (reason : string) :
  driver_at w md = Some d -> options_at w (options d) = Some o ->
  etcdClient d = Some c ->
  etcd w !! job_key d o jobID = Some (VJob j) ->
  UpdateJobState md jobID state reason w
  = if ppsutil.valid_transition (pps.job_state j) state then
      let store :=
        <[job_key d o (pps.job_id j)
          := VJob (ppsutil.with_state j state reason)]> (etcd w) in
      Returned None (set_etcd store (set_txn store w))
    else
      Returned (Some (ErrInvalidTransition (pps.job_state j) state))
               (set_txn (etcd w) w).
Proof.
  intros Hd Ho Hc Hj. unfold UpdateJobState, bind at 1.
  rewrite (NewSTM_at _ _ _ _ _ Hd Hc).
  unfold bind. rewrite (Jobs_at _ _ d o) by done.
  unfold col.Get, col.ReadWrite. wsimpl. cbn [col.rw_collection].
  unfold job_key in Hj. rewrite Hj. cbn [fst snd].
  rewrite (Pipelines_at _ _ d o) by done.
  rewrite (Jobs_at _ _ d o) by done.
  unfold ppsutil.UpdateJobState.
  destruct (ppsutil.valid_transition (pps.job_state j) state);
    reflexivity.
Qed.

Lemma valid_transition_listed (from to : pps.JobState) :
  ppsutil.valid_transition from to = true
  <-> In (from, to) listed_transitions.
Proof.
  unfold listed_transitions. split.
  - destruct from, to; simpl; intros H; try discriminate; tauto.
  - simpl. intros H.
    repeat (destruct H as [[= <- <-]|H]; [reflexivity|]). destruct H.
Qed.

(** C2: [UpdateJobState] reads the job and applies the transition in one
    transaction. A transition the specification lists is committed: the
    stored job gets the new state and the reason. Any other request
    returns [InvalidTransition] and the store is what it was, the job's
    record included. *)
Theorem UpdateJobState_transition (w : World) (md : ptr) (d : MockDriver)
  (o : MockOptions.t) (c : EtcdClient) (jobID : string)
  (j : pps.EtcdJobInfo) (state : pps.JobState) (reason : string) :
  driver_at w md = Some d -> options_at w (options d) = Some o ->
  etcdClient d = Some c ->
  etcd w !! job_key d o jobID = Some (VJob j) ->
  (In (pps.job_state j, state) listed_transitions ->
   exists w',
     UpdateJobState md jobID state reason w = Returned None w'
     /\ etcd w'
        = <[job_key d o (pps.job_id j)
            := VJob (ppsutil.with_state j state reason)]> (etcd w))
  /\ (~ In (pps.job_state j, state) listed_transitions ->
      exists w',
        UpdateJobState md jobID state reason w
        = Returned (Some (ErrInvalidTransition (pps.job_state j) state)) w'
        /\ etcd w' = etcd w
        /\ etcd w' !! job_key d o jobID = Some (VJob j)).
Proof.
  intros Hd Ho Hc Hj.
  rewrite (UpdateJobState_returns _ _ _ _ _ _ _ state reason Hd Ho Hc Hj).
  split; intros Hin.
  - apply valid_transition_listed in Hin. rewrite Hin.
    eexists. split; reflexivity.
  - destruct (ppsutil.valid_transition (pps.job_state j) state) eqn:Hv.
    + apply valid_transition_listed in Hv. contradiction.
    + eexists. split; [reflexivity|]. split; [reflexivity|exact Hj].
Qed.

Lemma UpdateJobState_transition_witness :
  let w := world_with_job pps.JOB_SUCCESS in
  etcd w !! job_key sample_driver sample_options "job1"
  = Some (VJob (sample_job pps.JOB_SUCCESS))
  /\ ~ In (pps.JOB_SUCCESS, pps.JOB_RUNNING) listed_transitions
  /\ exists w',
       UpdateJobState (addr 0) "job1" pps.JOB_RUNNING "again" w
       = Returned
           (Some (ErrInvalidTransition pps.JOB_SUCCESS pps.JOB_RUNNING)) w'
       /\ etcd w' = etcd w.
Proof.
  assert (Hnot : ~ In (pps.JOB_SUCCESS, pps.JOB_RUNNING) listed_transitions).
  { intros H. apply valid_transition_listed in H. discriminate H. }
  assert (Hj : etcd (world_with_job pps.JOB_SUCCESS)
               !! job_key sample_driver sample_options "job1"
               = Some (VJob (sample_job pps.JOB_SUCCESS))).
  { apply lookup_singleton_eq. }
  split; [exact Hj|]. split; [exact Hnot|].
  destruct (UpdateJobState_transition (world_with_job pps.JOB_SUCCESS)
              (addr 0) sample_driver sample_options 7%nat "job1"
              (sample_job pps.JOB_SUCCESS) pps.JOB_RUNNING "again"
              eq_refl eq_refl eq_refl Hj) as [_ Hinvalid].
  destruct (Hinvalid Hnot) as (w' & Hrun & Hsame & _).
  exists w'. split; assumption.
Defined.



Lemma DeleteJob_in_NewSTM (w : World) (md : ptr) (d : MockDriver)
  (o : MockOptions.t) (c : EtcdClient) (j : pps.EtcdJobInfo) :
  driver_at w md = Some d -> options_at w (options d) = Some o ->
  etcdClient d = Some c ->
  NewSTM md (fun stm => DeleteJob md stm (Some j)) w
  = let store := delete (job_key d o (pps.job_id j)) (etcd w) in
    Returned (Some {| col.Succeeded := true |}, None)
             (set_etcd store (set_txn store w)).
Proof.
  intros Hd Ho Hc. rewrite (NewSTM_at _ _ _ _ _ Hd Hc).
  unfold DeleteJob, bind. rewrite (Jobs_at _ _ d o) by done.
  reflexivity.
Qed.

(** ** The merge cache *)
Lemma filter_all {A : Type} (P : A -> Prop) `{!forall x, Decision (P x)}
  (l : list A) :
  Forall P l -> filter P l = l.
Proof.
  induction 1 as [|x r Hx _ IH]; [reflexivity|].
  rewrite filter_cons_True by done. by rewrite IH.
Qed.

Section MergeCacheFacts.

Context {Tree : Type} (combine : Tree -> Tree -> Tree) (empty : Tree).

Implicit Types (e : nat * Tree) (l : list (nat * Tree)).

Lemma insert_by_ordinal_comm e1 e2 l :
  e1.1 <> e2.1 ->
  MergeCache.insert_by_ordinal e1 (MergeCache.insert_by_ordinal e2 l)
  = MergeCache.insert_by_ordinal e2 (MergeCache.insert_by_ordinal e1 l).
Proof.
  intros Hne.
  induction l as [|x r IH]; simpl;
    repeat match goal with
      | |- context [(?a <=? ?b)%nat] => destruct (Nat.leb_spec a b); simpl
      end;
    try reflexivity; try lia.
  by rewrite IH.
Qed.

Lemma insert_by_ordinal_perm e l :
  MergeCache.insert_by_ordinal e l ≡ₚ e :: l.
Proof.
  induction l as [|x r IH]; simpl; [reflexivity|].
  destruct (e.1 <=? x.1)%nat; [reflexivity|].
  rewrite IH. apply Permutation_swap.
Qed.

Lemma by_ordinal_perm l : MergeCache.by_ordinal l ≡ₚ l.
Proof.
  induction l as [|x r IH]; simpl; [reflexivity|].
  rewrite insert_by_ordinal_perm. by rewrite IH.
Qed.

(** Entries with distinct ordinals are put in the same order whatever
    order they arrive in. *)
Lemma by_ordinal_permutation l1 l2 :
  l1 ≡ₚ l2 -> NoDup (map fst l1) ->
  MergeCache.by_ordinal l1 = MergeCache.by_ordinal l2.
Proof.
  induction 1 as [|x l l' _ IH|x y l|l l' l'' H1 IH1 H2 IH2]; intros Hnd.
  - reflexivity.
  - simpl in *. rewrite IH; [reflexivity|]. by inversion Hnd.
  - simpl in *. apply insert_by_ordinal_comm.
    inversion Hnd as [|? ? Hnotin _]; subst. intros E. apply Hnotin.
    rewrite E. left.
  - rewrite IH1 by done. apply IH2.
    by rewrite <- (Permutation_map fst H1).
Qed.

Lemma insert_by_ordinal_sorted e l :
  StronglySorted le (map fst l) ->
  StronglySorted le (map fst (MergeCache.insert_by_ordinal e l)).
Proof.
  induction l as [|x r IH]; simpl; intros Hs.
  - repeat constructor.
  - destruct (Nat.leb_spec e.1 x.1) as [H|H]; simpl.
    + constructor; [exact Hs|].
      inversion Hs as [|? ? _ Hall]; subst. constructor; [exact H|].
      eapply Forall_impl; [exact Hall|]. simpl. intros; lia.
    + inversion Hs as [|? ? Hr Hall]; subst.
      constructor; [by apply IH|].
      assert (Hp : map fst (MergeCache.insert_by_ordinal e r)
                   ≡ₚ e.1 :: map fst r).
      { change (e.1 :: map fst r) with (map fst (e :: r)).
        apply Permutation_map, insert_by_ordinal_perm. }
      rewrite Hp. constructor; [lia|exact Hall].
Qed.

Lemma by_ordinal_sorted l :
  StronglySorted le (map fst (MergeCache.by_ordinal l)).
Proof.
  induction l as [|x r IH]; simpl; [constructor|].
  by apply insert_by_ordinal_sorted.
Qed.

(** Putting entries with distinct ordinals keeps all of them, in the
    order they were put. *)
Lemma put_all_entries_from (h : MergeCache.handle (Tree := Tree)) l :
  NoDup (map fst (MergeCache.entries h ++ l)) ->
  MergeCache.entries
    (fold_left (fun h e => MergeCache.Put h e.1 e.2) l h)
  = MergeCache.entries h ++ l.
Proof.
  revert h. induction l as [|[k t] r IH]; intros h Hnd; simpl.
  - by rewrite app_nil_r.
  - assert (Hkeep :
      filter (fun e : nat * Tree => e.1 <> k) (MergeCache.entries h)
      = MergeCache.entries h).
    { apply filter_all, Forall_forall. intros [k' t'] Hin E.
      simpl in E. subst k'.
      rewrite map_app in Hnd. simpl in Hnd.
      apply NoDup_app in Hnd as (_ & Hdisj & _).
      apply (Hdisj k); [|left].
      apply list_elem_of_In, in_map_iff. exists (k, t').
      split; [reflexivity|]. by apply list_elem_of_In. }
    rewrite IH; simpl; rewrite Hkeep.
    + by rewrite <- app_assoc.
    + by rewrite <- app_assoc.
Qed.

Lemma put_all_entries (id : string) l :
  NoDup (map fst l) ->
  MergeCache.entries (MergeCache.put_all id l) = l.
Proof. intros Hnd. unfold MergeCache.put_all. by rewrite put_all_entries_from. Qed.

(** C5: partial trees with distinct ordinals merge to the same final
    tree in whatever order they are put in the cache: the tree obtained
    by combining them in the order of their ordinals. *)
Theorem Merge_deterministic (id : string) l1 l2 :
  NoDup (map fst l1) -> l1 ≡ₚ l2 ->
  MergeCache.Merge combine empty (MergeCache.put_all id l1)
  = MergeCache.Merge combine empty (MergeCache.put_all id l2)
  /\ MergeCache.Merge combine empty (MergeCache.put_all id l2)
     = fold_left combine (map snd (MergeCache.by_ordinal l1)) empty
  /\ MergeCache.by_ordinal l1 ≡ₚ l1
  /\ StronglySorted le (map fst (MergeCache.by_ordinal l1)).
Proof.
  intros Hnd Hp.
  assert (Hnd2 : NoDup (map fst l2)).
  { by rewrite <- (Permutation_map fst Hp). }
  unfold MergeCache.Merge. rewrite !put_all_entries by done.
  rewrite (by_ordinal_permutation l1 l2 Hp Hnd).
  split; [reflexivity|]. split; [reflexivity|].
  split; [|apply by_ordinal_sorted].
  rewrite by_ordinal_perm. by symmetry.
Qed.

End MergeCacheFacts.

Lemma Merge_deterministic_witness :
  NoDup (map fst [(2%nat, tree_C); (0%nat, tree_A); (1%nat, tree_B)])
  /\ merge_trees "run" [(2%nat, tree_C); (0%nat, tree_A); (1%nat, tree_B)]
     = merge_trees "run" [(0%nat, tree_A); (1%nat, tree_B); (2%nat, tree_C)]
  /\ merge_trees "run" [(0%nat, tree_A); (1%nat, tree_B); (2%nat, tree_C)]
     = [("/a", "h1"); ("/b", "h2"); ("/c", "h3")].
Proof.
  assert (Hnd : NoDup (map fst
            [(2%nat, tree_C); (0%nat, tree_A); (1%nat, tree_B)])).
  { compute_done. }
  assert (Hp : [(2%nat, tree_C); (0%nat, tree_A); (1%nat, tree_B)]
               ≡ₚ [(0%nat, tree_A); (1%nat, tree_B); (2%nat, tree_C)]).
  { eapply perm_trans; [apply perm_swap|]. apply perm_skip, perm_swap. }
  split; [exact Hnd|].
  split; [|reflexivity].
  exact (proj1 (Merge_deterministic app [] "run" _ _ Hnd Hp)).
Defined.

(** ** The task queue *)
Lemma create_is_Some (n size i : nat) :
  is_Some (work.create n size !! i) <-> (i < n)%nat.
Proof.
  induction n as [|k IH]; simpl.
  - rewrite lookup_empty. split; [by intros [? ?]|lia].
  - rewrite lookup_insert_is_Some. rewrite IH. lia.
Qed.

(** A transaction neither adds nor removes a chunk. *)
Lemma step_is_Some (q : gmap nat work.Chunk) (ev : work.Event) (i : nat) :
  is_Some (work.step q ev !! i) <-> is_Some (q !! i).
Proof.
  assert (Hins : forall k c c',
             q !! k = Some c ->
             is_Some (<[k:=c']> q !! i) <-> is_Some (q !! i)).
  { intros k c c' Hk. rewrite lookup_insert_is_Some.
    split; [intros [<-|[_ H]]; [by eexists|done]|].
    intros H. destruct (decide (k = i)); [by left|by right]. }
  destruct ev as [wk k now ttl|wk k now ttl|wk k]; simpl;
    destruct (q !! k) as [c|] eqn:Hk; try reflexivity.
  - destruct (work.held_by_other wk now c); [reflexivity|by eapply Hins].
  - destruct (work.lease_owner c); [|reflexivity].
    destruct (_ && _); [by eapply Hins|reflexivity].
  - destruct (work.lease_owner c); [|reflexivity].
    destruct (String.eqb _ _); [by eapply Hins|reflexivity].
Qed.

(** The chunks of a job are the [n] the master wrote, whatever the
    workers did since. *)
Lemma run_is_Some (n size : nat) (trace : list work.Event) (i : nat) :
  is_Some (work.run n size trace !! i) <-> (i < n)%nat.
Proof.
  unfold work.run. rewrite <- (create_is_Some n size i).
  generalize (work.create n size). induction trace as [|ev r IH]; intros q.
  - reflexivity.
  - simpl. rewrite IH. apply step_is_Some.
Qed.

Lemma all_complete_true (n : nat) (q : gmap nat work.Chunk) :
  work.all_complete n q = true
  <-> forall i, (i < n)%nat ->
        exists c, q !! i = Some c /\ work.completed c = true.
Proof.
  unfold work.all_complete. rewrite forallb_forall. split.
  - intros H i Hi. specialize (H i). rewrite in_seq in H.
    destruct (q !! i) as [c|]; [|by discriminate H; lia].
    exists c. split; [reflexivity|]. apply H. lia.
  - intros H i Hi. apply in_seq in Hi.
    destruct (H i) as (c & -> & Hc); [lia|exact Hc].
Qed.

(** A completion flag that is set stays set. *)
Lemma step_completed (q : gmap nat work.Chunk) (ev : work.Event) (i : nat)
  (c : work.Chunk) :
  q !! i = Some c -> work.completed c = true ->
  exists c', work.step q ev !! i = Some c' /\ work.completed c' = true.
Proof.
  intros Hi Hc.
  assert (Hins : forall k c1,
             (k = i -> work.completed c1 = true) ->
             exists c', <[k:=c1]> q !! i = Some c'
                        /\ work.completed c' = true).
  { intros k c1 Hk. destruct (decide (k = i)) as [->|Hne].
    - exists c1. rewrite lookup_insert_eq. auto.
    - exists c. by rewrite lookup_insert_ne. }
  destruct ev as [wk k now ttl|wk k now ttl|wk k]; simpl;
    destruct (q !! k) as [ck|] eqn:Hk; try by exists c.
  - destruct (work.held_by_other wk now ck); [by exists c|].
    apply Hins. intros ->. simpl. congruence.
  - destruct (work.lease_owner ck); [|by exists c].
    destruct (_ && _); [|by exists c].
    apply Hins. intros ->. simpl. congruence.
  - destruct (work.lease_owner ck); [|by exists c].
    destruct (String.eqb _ _); [|by exists c].
    by apply Hins.
Qed.

Lemma all_complete_step (n : nat) (q : gmap nat work.Chunk)
  (ev : work.Event) :
  work.all_complete n q = true -> work.all_complete n (work.step q ev) = true.
Proof.
  rewrite !all_complete_true. intros H i Hi.
  destruct (H i Hi) as (c & Hc & Hdone). by eapply step_completed.
Qed.

Lemma all_complete_steps (n : nat) (q : gmap nat work.Chunk)
  (trace : list work.Event) :
  work.all_complete n q = true ->
  work.all_complete n (fold_left work.step trace q) = true.
Proof.
  revert q. induction trace as [|ev r IH]; intros q H; [exact H|].
  simpl. by apply IH, all_complete_step.
Qed.

(** The master returns from its wait at the first moment all chunks are
    complete. *)
Lemma wait_from_Some (n : nat) (q : gmap nat work.Chunk)
  (trace : list work.Event) (k : nat) :
  work.wait_from n q trace = Some k ->
  (k <= length trace)%nat
  /\ work.all_complete n (fold_left work.step (take k trace) q) = true
  /\ forall j, (j < k)%nat ->
        work.all_complete n (fold_left work.step (take j trace) q) = false.
Proof.
  revert q k. induction trace as [|ev r IH]; intros q k; simpl.
  - destruct (work.all_complete n q) eqn:E; [|discriminate].
    intros [= <-]. split; [lia|]. split; [exact E|]. intros j Hj. lia.
  - destruct (work.all_complete n q) eqn:E.
    + intros [= <-]. split; [lia|]. split; [exact E|]. intros j Hj. lia.
    + destruct (work.wait_from n (work.step q ev) r) as [k'|] eqn:Hw;
        [|discriminate].
      simpl. intros [= <-]. destruct (IH _ _ Hw) as (Hle & Hdone & Hnot).
      split; [lia|]. split; [exact Hdone|].
      intros [|j] Hj; [exact E|]. simpl. apply Hnot. lia.
Qed.

Lemma wait_from_None (n : nat) (q : gmap nat work.Chunk)
  (trace : list work.Event) :
  work.wait_from n q trace = None ->
  work.all_complete n (fold_left work.step trace q) = false.
Proof.
  revert q. induction trace as [|ev r IH]; intros q; simpl.
  - by destruct (work.all_complete n q).
  - destruct (work.all_complete n q); [discriminate|].
    destruct (work.wait_from n (work.step q ev) r) eqn:Hw; [discriminate|].
    intros _. by apply IH.
Qed.

(** C6: after any sequence of claims, renewals and completions, the
    master reports the job complete exactly when every chunk of the job
    has its completion flag set, so it does not report completion while
    the flag of some chunk is unset; its wait returns at the first
    moment this is so and stays blocked as long as it is not. *)
Theorem reports_complete_iff (n size : nat) (trace : list work.Event) :
  (work.reports_complete n size trace = true
   <-> forall i c,
         work.run n size trace !! i = Some c -> work.completed c = true)
  /\ (work.reports_complete n size trace = true
      <-> forall i, (i < n)%nat ->
            exists c, work.run n size trace !! i = Some c
                      /\ work.completed c = true)
  /\ ((exists i c, work.run n size trace !! i = Some c
                   /\ work.completed c = false)
      -> work.reports_complete n size trace = false)
  /\ (forall k,
        work.wait n size trace = Some k ->
        (k <= length trace)%nat
        /\ work.reports_complete n size (take k trace) = true
        /\ forall j, (j < k)%nat ->
              work.reports_complete n size (take j trace) = false)
  /\ (work.wait n size trace = None <->
      work.reports_complete n size trace = false).
Proof.
  unfold work.reports_complete.
  assert (Hiff : work.all_complete n (work.run n size trace) = true
                 <-> forall i c,
                       work.run n size trace !! i = Some c ->
                       work.completed c = true).
  { rewrite all_complete_true. split.
    - intros H i c Hi.
      destruct (H i) as (c' & Hc' & Hdone).
      + apply (run_is_Some n size trace). by eexists.
      + congruence.
    - intros H i Hi. apply (run_is_Some n size trace) in Hi as [c Hc].
      exists c. split; [exact Hc|]. by eapply H. }
  split; [exact Hiff|]. split; [apply all_complete_true|].
  split.
  { intros (i & c & Hi & Hc).
    apply not_true_is_false. intros E.
    rewrite (proj1 Hiff E i c Hi) in Hc. discriminate Hc. }
  split; [intros k Hk; by apply wait_from_Some|].
  split; [apply wait_from_None|].
  unfold work.wait, work.run. intros Hnot.
  destruct (work.wait_from n (work.create n size) trace) as [k|] eqn:Hw;
    [|reflexivity].
  destruct (wait_from_Some _ _ _ _ Hw) as (Hle & Hdone & _).
  rewrite <- (take_drop k trace), fold_left_app in Hnot.
  by rewrite all_complete_steps in Hnot.
Qed.

(** ** Paths *)
Module FilepathFacts.

Import Filepath.

#[local] Arguments String.append : simpl nomatch.

Lemma append_assoc (a b c : string) : (a +:+ b) +:+ c = a +:+ (b +:+ c).
Proof. induction a as [|x a IH]; simpl; [reflexivity|]. by rewrite IH. Qed.


Lemma length_append (a b : string) :
  String.length (a +:+ b) = (String.length a + String.length b)%nat.
Proof. induction a as [|x a IH]; simpl; [reflexivity|]. by rewrite IH. Qed.

Lemma prefix_append (a b : string) :
  String.prefix a b = true <-> exists c, b = a +:+ c.
Proof.
  revert b. induction a as [|x a IH]; intros b; simpl.
  - split; [intros _; by exists b|]. by destruct b.
  - destruct b as [|y b]; simpl.
    + split; [discriminate|]. by intros [c Hc].
    + destruct (ascii_dec x y) as [->|Hne].
      * rewrite IH. split; intros [c Hc]; exists c; congruence.
      * split; [discriminate|]. intros [c Hc]. congruence.
Qed.

Lemma split_nonempty (s : string) : split s <> [].
Proof.
  induction s as [|c r IH]; simpl; [done|].
  destruct (IsPathSeparator c); [done|]. by destruct (split r).
Qed.

Lemma split_append_sep (a b : string) :
  split (a +:+ String Separator b) = split a ++ split b.
Proof.
  induction a as [|c a IH]; simpl; [reflexivity|].
  destruct (IsPathSeparator c) eqn:Hc; [by rewrite IH|].
  rewrite IH. pose proof (split_nonempty a) as Ha.
  by destruct (split a).
Qed.

Lemma split_no_sep (s : string) : no_sep s = true -> split s = [s].
Proof.
  induction s as [|c r IH]; simpl; [reflexivity|].
  destruct (IsPathSeparator c); simpl; [discriminate|].
  intros H. by rewrite IH.
Qed.

Lemma plain_no_sep (e : string) : plain e = true -> no_sep e = true.
Proof. unfold plain. intros H. by repeat apply andb_prop in H as [H ?]. Qed.

Lemma plain_not_rooted (e : string) : plain e = true -> rooted e = false.
Proof.
  intros H. pose proof (plain_no_sep e H) as Hn.
  destruct e as [|c r]; [reflexivity|]. simpl in *.
  by destruct (IsPathSeparator c).
Qed.

Lemma plain_nonempty (e : string) : plain e = true -> e <> "".
Proof. intros H ->. discriminate H. Qed.

Lemma clean_step_plain (r : bool) (out : list string) (e : string) :
  plain e = true -> clean_step r out e = e :: out.
Proof.
  unfold plain, clean_step. intros H.
  repeat apply andb_prop in H as [H ?].
  destruct (String.eqb e ""); [discriminate|].
  destruct (String.eqb e "."); [discriminate|].
  by destruct (String.eqb e "..").
Qed.

Lemma fold_clean_step_plain (r : bool) (elems out : list string) :
  Forall (fun e => plain e = true) elems ->
  fold_left (clean_step r) elems out = rev elems ++ out.
Proof.
  intros H. revert out.
  induction H as [|e es He _ IH]; intros out; simpl; [reflexivity|].
  rewrite clean_step_plain by done. rewrite IH.
  by rewrite <- app_assoc.
Qed.

Lemma split_join_sep (elems : list string) :
  elems <> [] -> Forall (fun e => plain e = true) elems ->
  split (join_sep elems) = elems.
Proof.
  intros Hne H. induction H as [|e es He Hes IH]; [done|].
  destruct es as [|e' es'].
  - simpl. by apply split_no_sep, plain_no_sep.
  - change (join_sep (e :: e' :: es'))
      with (e +:+ String Separator (join_sep (e' :: es'))).
    rewrite split_append_sep, IH by done.
    by rewrite split_no_sep by by apply plain_no_sep.
Qed.

Lemma join_sep_app (l elems : list string) :
  elems <> [] -> join_sep (l ++ elems) = with_sep l +:+ join_sep elems.
Proof.
  intros Hne. induction l as [|x l IH]; [reflexivity|].
  simpl. destruct (l ++ elems) eqn:E.
  - by destruct l, elems.
  - rewrite IH. by rewrite append_assoc.
Qed.

Lemma rooted_append (a b : string) : a <> "" -> rooted (a +:+ b) = rooted a.
Proof. by destruct a. Qed.

Lemma join_sep_nonempty (elems : list string) :
  elems <> [] -> Forall (fun e => plain e = true) elems ->
  join_sep elems <> "".
Proof.
  intros Hne H. destruct H as [|e es He _]; [done|].
  apply plain_nonempty in He. destruct e; [done|]. by destruct es.
Qed.

Lemma rooted_join_sep (elems : list string) :
  Forall (fun e => plain e = true) elems -> rooted (join_sep elems) = false.
Proof.
  intros H. destruct H as [|e es He _]; [reflexivity|].
  pose proof (plain_not_rooted e He) as Hr.
  pose proof (plain_nonempty e He) as Hn.
  destruct es; [exact Hr|]. simpl. by rewrite rooted_append.
Qed.

(** [Join] of a root and plain elements: the root's prefix, then the
    elements with separators between them. *)
Lemma Join_plain (root : string) (elems : list string) :
  elems <> [] -> Forall (fun e => plain e = true) elems ->
  Join (root :: elems) = dir_prefix root +:+ join_sep elems.
Proof.
  intros Hne Hplain. unfold dir_prefix. cbn [Join].
  destruct (String.eqb_spec root "") as [->|Hroot].
  - destruct elems as [|e es]; [done|]. cbn [Join].
    inversion Hplain as [|? ? He Hes]; subst.
    rewrite (proj2 (String.eqb_neq e "")) by by apply plain_nonempty.
    unfold Clean.
    rewrite (proj2 (String.eqb_neq _ "")) by by apply join_sep_nonempty.
    rewrite rooted_join_sep by done.
    rewrite split_join_sep by done.
    rewrite fold_clean_step_plain by done.
    rewrite app_nil_r, rev_involutive. reflexivity.
  - destruct elems as [|e es]; [done|].
    change (join_sep (root :: e :: es))
      with (root +:+ String Separator (join_sep (e :: es))).
    unfold Clean.
    assert (Hnonempty : root +:+ String Separator (join_sep (e :: es)) <> "")
      by by destruct root.
    rewrite (proj2 (String.eqb_neq _ "")) by done.
    rewrite rooted_append by done.
    rewrite split_append_sep, split_join_sep by done.
    rewrite fold_left_app, fold_clean_step_plain by done.
    rewrite rev_app_distr, rev_involutive.
    rewrite join_sep_app by done.
    destruct (rooted root); [reflexivity|].
    destruct (rev (fold_left (clean_step false) (split root) []));
      reflexivity.
Qed.

Lemma clean_step_nonempty (r : bool) (out : list string) (e : string) :
  Forall (fun x => x <> "") out ->
  Forall (fun x => x <> "") (clean_step r out e).
Proof.
  intros Hout. unfold clean_step.
  destruct (String.eqb_spec e ""); [done|].
  destruct (String.eqb e "."); [done|].
  destruct (String.eqb e "..").
  - destruct out as [|top rest].
    + destruct r; by repeat constructor.
    + destruct (String.eqb top "..").
      * by constructor.
      * by inversion Hout.
  - by constructor.
Qed.

Lemma join_sep_nonempty_elems (out : list string) :
  out <> [] -> Forall (fun x => x <> "") out -> join_sep out <> "".
Proof.
  intros Hne H. destruct H as [|e es He _]; [done|].
  destruct e; [done|]. by destruct es.
Qed.

(** [Clean] never returns the empty path. *)
Lemma Clean_nonempty (path : string) : Clean path <> "".
Proof.
  unfold Clean. destruct (String.eqb path ""); [done|].
  destruct (rooted path); [done|].
  set (out := rev _).
  assert (Hout : Forall (fun x => x <> "") out).
  { subst out. apply Forall_rev.
    assert (Hfold : forall l acc,
               Forall (fun x : string => x <> "") acc ->
               Forall (fun x : string => x <> "")
                      (fold_left (clean_step false) l acc)).
    { induction l as [|e es IH]; intros acc Hacc; [exact Hacc|].
      simpl. apply IH. by apply clean_step_nonempty. }
    apply Hfold. constructor. }
  destruct out as [|e es] eqn:E; [done|].
  by apply join_sep_nonempty_elems.
Qed.

Lemma Join_nonempty (root d id : string) :
  plain d = true -> Join [root; d; id] <> "".
Proof.
  intros Hd. cbn [Join].
  destruct (String.eqb root ""); [|apply Clean_nonempty].
  rewrite (proj2 (String.eqb_neq d "")) by by apply plain_nonempty.
  apply Clean_nonempty.
Qed.


End FilepathFacts.

(** ** The disk *)
Module OsFacts.

Import FilepathFacts.

#[local] Arguments String.append : simpl nomatch.

Lemma set_disk_id (w : World) : set_disk (disk w) w = w.
Proof. by destruct w. Qed.

Lemma under_refl (p : string) : os.under p p = true.
Proof. unfold os.under. by rewrite String.eqb_refl. Qed.

Lemma under_length (p q : string) :
  os.under p q = true -> (String.length p <= String.length q)%nat.
Proof.
  unfold os.under. intros [H|H]%orb_prop.
  - apply String.eqb_eq in H. by subst.
  - apply prefix_append in H as [c ->].
    rewrite !length_append. lia.
Qed.

Lemma parents_from_length (pre s q : string) :
  In q (os.parents_from pre s) ->
  (String.length q < String.length pre + String.length s)%nat.
Proof.
  revert pre. induction s as [|c r IH]; intros pre; simpl; [done|].
  assert (Hrec : In q (os.parents_from (pre +:+ String c "") r) ->
                 (String.length q < String.length pre + S (String.length r))%nat).
  { intros H. apply IH in H. rewrite length_append in H. simpl in H. lia. }
  destruct (_ && _); [|exact Hrec].
  intros [<-|H]; [lia|by apply Hrec].
Qed.

(** A directory above [path] is neither [path] nor below it. *)
Lemma parents_not_under (path q : string) :
  In q (os.parents path) -> os.under path q = false.
Proof.
  intros H. apply parents_from_length in H. simpl in H.
  apply not_true_is_false. intros Hu. apply under_length in Hu. lia.
Qed.

Lemma Mkdir_last_spec (path : string) (perm : Z) (w : World) :
  exists err d',
    os.Mkdir_last path perm w = Returned err (set_disk d' w)
    /\ (forall q,
          d' !! q = disk w !! q
          \/ (q = path /\ disk w !! q = None /\ d' !! q = Some Dir))
    /\ (err = None -> d' !! path = Some Dir)
    /\ (err <> None -> d' !! path <> Some Dir).
Proof.
  unfold os.Mkdir_last, os.Mkdir, bind, get_world, ret. cbv beta.
  assert (Hsame : forall err : option error,
             (err = None -> disk w !! path = Some Dir) ->
             (err <> None -> disk w !! path <> Some Dir) ->
             exists err' d',
               Returned err w = Returned err' (set_disk d' w)
               /\ (forall q,
                     d' !! q = disk w !! q
                     \/ (q = path /\ disk w !! q = None
                         /\ d' !! q = Some Dir))
               /\ (err' = None -> d' !! path = Some Dir)
               /\ (err' <> None -> d' !! path <> Some Dir)).
  { intros err H1 H2. exists err, (disk w). rewrite set_disk_id.
    split; [reflexivity|]. split; [by left|]. by split. }
  destruct (String.eqb path ""); cbv beta.
  { destruct (disk w !! path) as [[|]|] eqn:Hp;
      apply Hsame; rewrite ?Hp; done. }
  destruct (mkdir_fault w path) as [e|]; cbv beta.
  { destruct (disk w !! path) as [[|]|] eqn:Hp;
      apply Hsame; rewrite ?Hp; done. }
  cbv zeta.
  destruct (match os.dir_above path with
            | Some p => disk w !! p
            | None => Some Dir
            end) as [[|]|]; cbv beta;
    [|destruct (disk w !! path) as [[|]|] eqn:Hp;
        apply Hsame; rewrite ?Hp; done..].
  destruct (disk w !! path) as [[|]|] eqn:Hp; cbv beta; rewrite ?Hp;
    [apply Hsame; rewrite ?Hp; done..|].
  exists None, (<[path:=Dir]> (disk w)). split; [reflexivity|].
  split; [|split; [intros _; apply lookup_insert_eq|done]].
  intros q. destruct (decide (q = path)) as [->|Hq].
  - right. split; [done|]. split; [done|]. apply lookup_insert_eq.
  - left. by apply lookup_insert_ne.
Qed.

(** [os.MkdirAll_chain] returns, and changes the disk only by making
    directories of its chain that were not there. When it succeeds the
    first path of the chain is a directory; when it fails, it is not,
    unless it occurs again further up the chain. *)
Lemma MkdirAll_chain_spec (chain : list string) (perm : Z) (w : World) :
  exists err d',
    os.MkdirAll_chain chain perm w = Returned err (set_disk d' w)
    /\ (forall q,
          d' !! q = disk w !! q
          \/ (In q chain /\ disk w !! q = None /\ d' !! q = Some Dir))
    /\ (forall path up,
          chain = path :: up ->
          (err = None -> d' !! path = Some Dir)
          /\ (err <> None -> ~ In path up -> d' !! path <> Some Dir)).
Proof.
  revert w. induction chain as [|path up IH]; intros w.
  - exists None, (disk w). simpl. unfold ret. rewrite set_disk_id.
    split; [reflexivity|]. split; [by left|]. discriminate.
  - simpl. destruct (disk w !! path) as [[|]|] eqn:Hp.
    + exists None, (disk w). rewrite set_disk_id.
      split; [reflexivity|]. split; [by left|].
      intros ? ? [= <- <-]. split; [done|]. by intros [].
    + exists (Some (PathError "mkdir" path "ENOTDIR")), (disk w).
      rewrite set_disk_id. split; [reflexivity|]. split; [by left|].
      intros ? ? [= <- <-]. split; [discriminate|]. intros _ _.
      by rewrite Hp.
    + destruct (IH w) as (err & d1 & Hrun & Hgrow & _).
      unfold bind at 1. rewrite Hrun.
      destruct err as [e|].
      * exists (Some e), d1. split; [reflexivity|]. split.
        { intros q. destruct (Hgrow q) as [H|(H1 & H2 & H3)];
            [by left|right]. split; [by right|done]. }
        intros ? ? [= <- <-]. split; [discriminate|]. intros _ Hnot.
        destruct (Hgrow path) as [H|(H1 & _)]; [|done].
        rewrite H, Hp. discriminate.
      * destruct (Mkdir_last_spec path perm (set_disk d1 w))
          as (err & d2 & Hlast & Hgrow2 & Hok & Hfail).
        exists err, d2. split; [exact Hlast|]. wsimpl. split.
        { intros q. destruct (Hgrow2 q) as [H2|(-> & H2 & H3)].
          - rewrite H2. destruct (Hgrow q) as [H|(H1 & H4 & H5)];
              [by left|right]. split; [by right|done].
          - right. split; [by left|]. split; [exact Hp|exact H3]. }
        intros ? ? [= <- <-]. split; [exact Hok|].
        intros H _. by apply Hfail.
Qed.

(** [os.MkdirAll]: the disk only gains directories, none of them with a
    longer path than the one asked for; nothing at or below the path but
    the path itself changes, and the path is a directory afterwards
    exactly when the call succeeds. *)
Lemma MkdirAll_spec (path : string) (perm : Z) (w : World) :
  exists err d',
    os.MkdirAll path perm w = Returned err (set_disk d' w)
    /\ (forall q k, disk w !! q = Some k -> d' !! q = Some k)
    /\ (forall q, d' !! q = disk w !! q
                  \/ (String.length q <= String.length path)%nat)
    /\ (forall q, os.under path q = true -> q <> path ->
                  d' !! q = disk w !! q)
    /\ (err = None -> d' !! path = Some Dir)
    /\ (err <> None -> d' !! path = disk w !! path
                       /\ d' !! path <> Some Dir).
Proof.
  unfold os.MkdirAll.
  destruct (MkdirAll_chain_spec (path :: rev (os.parents path)) perm w)
    as (err & d' & Hrun & Hgrow & Hhead).
  destruct (Hhead _ _ eq_refl) as [Hok Hfail].
  assert (Hnotin : ~ In path (rev (os.parents path))).
  { intros H. apply in_rev, parents_not_under in H.
    by rewrite under_refl in H. }
  exists err, d'. split; [exact Hrun|]. split.
  { intros q k Hq. destruct (Hgrow q) as [H|(_ & H & _)]; congruence. }
  split.
  { intros q. destruct (Hgrow q) as [H|([<-|H] & _)];
      [by left|by right|right].
    apply in_rev, parents_from_length in H. simpl in H. lia. }
  split.
  { intros q Hu Hq. destruct (Hgrow q) as [H|([H|H] & _)]; [done|done|].
    apply in_rev, parents_not_under in H. congruence. }
  split; [exact Hok|].
  intros He. specialize (Hfail He Hnotin). split; [|exact Hfail].
  destruct (Hgrow path) as [H|(_ & _ & H)]; [exact H|done].
Qed.

(** [os.RemoveAll] only removes. *)
Lemma RemoveAll_spec (path : string) (w : World) :
  exists err d',
    os.RemoveAll path w = Returned err (set_disk d' w)
    /\ (forall q, d' !! q = None \/ d' !! q = disk w !! q)
    /\ (path <> "" -> os.endsWithDot path = false ->
        remove_fault w path = None -> err = None)
    /\ (path <> "" -> err = None -> gone (set_disk d' w) path).
Proof.
  unfold os.RemoveAll.
  destruct (String.eqb_spec path "") as [->|Hne].
  { exists None, (disk w). rewrite set_disk_id. split; [reflexivity|].
    split; [by right|]. by split. }
  destruct (os.endsWithDot path).
  { eexists (Some _), (disk w). rewrite set_disk_id. split; [reflexivity|].
    split; [by right|]. by split. }
  destruct (remove_fault w path) as [e|] eqn:Hf.
  { exists (Some e), (disk w). rewrite set_disk_id. split; [reflexivity|].
    split; [by right|]. by split. }
  eexists None, _. split; [reflexivity|]. split.
  { intros q.
    destruct (filter (fun kv : string * FileKind => os.under path kv.1 = false)
                (disk w) !! q) as [k|] eqn:E; [|by left].
    right. apply map_lookup_filter_Some in E as [E _]. by rewrite E. }
  split; [done|].
  intros _ _ q Hq. wsimpl. apply map_lookup_filter_None. right.
  intros k _. simpl. by rewrite Hq.
Qed.

Lemma ends_sep_dot_no_sep (s : string) :
  Filepath.no_sep s = true -> os.ends_sep_dot s = false.
Proof.
  induction s as [|a r IH]; [reflexivity|].
  cbn [Filepath.no_sep]. intros [Ha Hr]%andb_prop.
  destruct r as [|b r']; [reflexivity|].
  cbn [os.ends_sep_dot]. destruct r' as [|c r''].
  - by destruct (Filepath.IsPathSeparator a).
  - by apply IH.
Qed.

(** A path whose last element is plain does not end in a dot. *)
Lemma endsWithDot_plain (y id : string) :
  Filepath.plain id = true ->
  os.endsWithDot (y +:+ String Filepath.Separator id) = false.
Proof.
  intros Hid. pose proof (plain_no_sep id Hid) as Hns.
  pose proof (plain_nonempty id Hid) as Hne.
  assert (Hdot : id <> ".").
  { intros ->. discriminate Hid. }
  unfold os.endsWithDot. apply orb_false_intro.
  - apply String.eqb_neq. intros E. apply (f_equal String.length) in E.
    rewrite length_append in E. destruct id; [done|]. simpl in E. lia.
  - induction y as [|a y IH].
    + cbn [String.append]. destruct id as [|b r']; [done|].
      cbn [os.ends_sep_dot]. destruct r' as [|c r''].
      * destruct (Ascii.eqb_spec b "."); [congruence|].
        by rewrite andb_false_r.
      * exact (ends_sep_dot_no_sep _ Hns).
    + cbn [String.append].
      destruct (y +:+ String Filepath.Separator id) as [|b r'] eqn:E.
      { by destruct y. }
      cbn [os.ends_sep_dot]. destruct r' as [|c r'']; [|exact IH].
      destruct y as [|? y'].
      * cbn [String.append] in E. injection E as <- E. congruence.
      * cbn [String.append] in E. injection E as <- E. by destruct y'.
Qed.

End OsFacts.

(** Removing more leaves gone what was gone. *)
Lemma gone_set_disk_shrink (w : World) (d d' : gmap string FileKind)
  (dir : string) :
  (forall q, d' !! q = None \/ d' !! q = d !! q) ->
  gone (set_disk d w) dir -> gone (set_disk d' (set_disk d w)) dir.
Proof.
  intros Hshrink Hgone q Hq. specialize (Hgone q Hq). wsimpl.
  destruct (Hshrink q) as [H|H]; congruence.
Qed.


(** ** [WithDatumCache] *)
Lemma WithDatumCache_steps (w : World) (md : ptr) (d : MockDriver)
  (o : MockOptions.t)
  (cb : hashtree.MergeCache -> hashtree.MergeCache -> M (option error)) :
  driver_at w md = Some d -> options_at w (options d) = Some o ->
  WithDatumCache md cb w
  = with_cache_dirs (datum_dir o (next_run_id w))
      (stats_dir o (next_run_id w)) cb
      (set_uuid_drawn (S (uuid_drawn w)) w).
Proof.
  intros Hd Ho. unfold WithDatumCache, bind at 1, uuid.NewWithoutDashes.
  set (w0 := set_uuid_drawn (S (uuid_drawn w)) w).
  assert (Hd0 : driver_at w0 md = Some d) by (by destruct md).
  assert (Ho0 : options_at w0 (options d) = Some o)
    by (by destruct (options d)).
  unfold bind at 1. rewrite (load_driver_at _ _ _ Hd0).
  unfold bind at 1. rewrite (load_options_at _ _ _ Ho0).
  unfold bind at 1. rewrite (load_driver_at _ _ _ Hd0).
  unfold bind at 1. rewrite (load_options_at _ _ _ Ho0).
  reflexivity.
Qed.

(** Below a longer path, making a directory changes nothing. *)
Lemma gone_after_shorter (w : World) (d' : gmap string FileKind)
  (path dir : string) :
  (forall q, d' !! q = disk w !! q
             \/ (String.length q <= String.length path)%nat) ->
  (String.length path < String.length dir)%nat ->
  gone w dir -> gone (set_disk d' w) dir.
Proof.
  intros Hlen Hlt Hgone q Hq. wsimpl.
  destruct (Hlen q) as [->|H]; [by apply Hgone|].
  apply OsFacts.under_length in Hq. lia.
Qed.

(** A failed [os.MkdirAll] leaves nothing at or below its path when
    nothing was there. *)
Lemma gone_after_failure (w : World) (d' : gmap string FileKind)
  (path : string) :
  (forall q, os.under path q = true -> q <> path ->
             d' !! q = disk w !! q) ->
  d' !! path = disk w !! path ->
  gone w path -> gone (set_disk d' w) path.
Proof.
  intros Hbelow Hpath Hgone q Hq. wsimpl.
  destruct (decide (q = path)) as [->|Hne].
  - rewrite Hpath. apply Hgone, OsFacts.under_refl.
  - rewrite Hbelow by done. by apply Hgone.
Qed.

Lemma length_join_sep2 (a b : string) :
  String.length (Filepath.join_sep [a; b])
  = (String.length a + 1 + String.length b)%nat.
Proof.
  cbn [Filepath.join_sep]. rewrite !FilepathFacts.length_append.
  simpl. lia.
Qed.

(** The cache directories of a run with a plain identifier. *)
Lemma run_dirs_plain (o : MockOptions.t) (id : string) :
  Filepath.plain id = true ->
  datum_dir o id
  = Filepath.dir_prefix (MockOptions.HashtreePath o)
    +:+ Filepath.join_sep ["datum"; id]
  /\ stats_dir o id
     = Filepath.dir_prefix (MockOptions.HashtreePath o)
       +:+ Filepath.join_sep ["datumStats"; id]
  /\ os.endsWithDot (datum_dir o id) = false
  /\ os.endsWithDot (stats_dir o id) = false
  /\ datum_dir o id <> "" /\ stats_dir o id <> ""
  /\ (String.length (datum_dir o id) < String.length (stats_dir o id))%nat.
Proof.
  intros Hid. unfold datum_dir, stats_dir.
  rewrite !FilepathFacts.Join_plain by (done || by repeat constructor).
  split; [reflexivity|]. split; [reflexivity|].
  split.
  { change (Filepath.join_sep ["datum"; id])
      with ("datum" +:+ String Filepath.Separator id).
    rewrite <- FilepathFacts.append_assoc.
    by apply OsFacts.endsWithDot_plain. }
  split.
  { change (Filepath.join_sep ["datumStats"; id])
      with ("datumStats" +:+ String Filepath.Separator id).
    rewrite <- FilepathFacts.append_assoc.
    by apply OsFacts.endsWithDot_plain. }
  split.
  { rewrite <- (FilepathFacts.Join_plain _ ["datum"; id])
      by (done || by repeat constructor).
    by apply FilepathFacts.Join_nonempty. }
  split.
  { rewrite <- (FilepathFacts.Join_plain _ ["datumStats"; id])
      by (done || by repeat constructor).
    by apply FilepathFacts.Join_nonempty. }
  rewrite !FilepathFacts.length_append, !length_join_sep2. simpl. lia.
Qed.

(** ** The steps of [WithDatumCache], one by one *)

Lemma RemoveAll_keeps_outside (path : string) (w : World) :
  exists err d',
    os.RemoveAll path w = Returned err (set_disk d' w)
    /\ (forall q, os.under path q = false -> d' !! q = disk w !! q)
    /\ (path <> "" -> os.endsWithDot path = false ->
        err = remove_fault w path)
    /\ (path <> "" -> err = None -> gone (set_disk d' w) path)
    /\ (forall q, d' !! q = None \/ d' !! q = disk w !! q)
    /\ (err <> None -> d' = disk w).
Proof.
  unfold os.RemoveAll.
  destruct (String.eqb_spec path "") as [->|Hne].
  { exists None, (disk w). rewrite OsFacts.set_disk_id.
    repeat (split; [done|]). split; [by right|done]. }
  destruct (os.endsWithDot path).
  { eexists (Some _), (disk w). rewrite OsFacts.set_disk_id.
    repeat (split; [done|]). split; [by right|done]. }
  destruct (remove_fault w path) as [e|] eqn:Hf.
  { exists (Some e), (disk w). rewrite OsFacts.set_disk_id.
    repeat (split; [done|]). split; [by right|done]. }
  eexists None, _. split; [reflexivity|]. split.
  { intros q Hq.
    destruct (disk w !! q) as [k|] eqn:E.
    - apply map_lookup_filter_Some. by split.
    - apply map_lookup_filter_None. by left. }
  split; [done|]. split.
  { intros _ _ q Hq. wsimpl. apply map_lookup_filter_None. right.
    intros k _. simpl. by rewrite Hq. }
  split; [|done]. intros q.
  destruct (filter (fun kv : string * FileKind => os.under path kv.1 = false)
              (disk w) !! q) as [k|] eqn:E; [|by left].
  right. apply map_lookup_filter_Some in E as [E _]. by rewrite E.
Qed.

Lemma remove_cache_outcome (path : string) (retErr : option error)
  (w : World) :
  exists err d',
    remove_cache path retErr w
    = Returned (match retErr with None => err | Some _ => retErr end)
        (set_disk d' w)
    /\ (forall q, os.under path q = false -> d' !! q = disk w !! q)
    /\ (path <> "" -> os.endsWithDot path = false ->
        err = remove_fault w path)
    /\ (path <> "" -> err = None -> gone (set_disk d' w) path)
    /\ (forall q, d' !! q = None \/ d' !! q = disk w !! q)
    /\ (err <> None -> d' = disk w).
Proof.
  destruct (RemoveAll_keeps_outside path w) as (err & d' & Hrun & H).
  exists err, d'. split; [|exact H].
  unfold remove_cache, bind. rewrite Hrun. by destruct retErr.
Qed.

Lemma WithDatumCache_called (w w2 : World) (md : ptr) (d : MockDriver)
  (o : MockOptions.t) :
  driver_at w md = Some d -> options_at w (options d) = Some o ->
  callback_world o w = Some w2 ->
  is_dir w2 (datum_dir o (next_run_id w)) = true
  /\ is_dir w2 (stats_dir o (next_run_id w)) = true
  /\ remove_fault w2 = remove_fault w
  /\ (forall q k, disk w !! q = Some k -> disk w2 !! q = Some k)
  /\ forall cb,
       WithDatumCache md cb w
       = with_defer (remove_cache (datum_dir o (next_run_id w))) None
           (with_defer (remove_cache (stats_dir o (next_run_id w))) None
              (cb (hashtree.NewMergeCache (datum_dir o (next_run_id w)))
                  (hashtree.NewMergeCache (stats_dir o (next_run_id w)))))
           w2.
Proof.
  intros Hd Ho Hcw. unfold callback_world in Hcw. cbv zeta in Hcw.
  set (datum := datum_dir o (next_run_id w)) in *.
  set (stats := stats_dir o (next_run_id w)) in *.
  set (w0 := set_uuid_drawn (S (uuid_drawn w)) w) in *.
  destruct (OsFacts.MkdirAll_spec datum 511 w0)
    as (err1 & d1 & E1 & Hmono1 & _ & _ & Hok1 & _).
  rewrite E1 in Hcw. destruct err1 as [e|]; [done|].
  destruct (OsFacts.MkdirAll_spec stats 511 (set_disk d1 w0))
    as (err2 & d2 & E2 & Hmono2 & _ & _ & Hok2 & _).
  rewrite E2 in Hcw. destruct err2 as [e|]; [done|].
  injection Hcw as <-. unfold is_dir. wsimpl.
  split; [by rewrite (Hmono2 _ _ (Hok1 eq_refl))|].
  split; [by rewrite (Hok2 eq_refl)|].
  split; [reflexivity|].
  split; [intros q k Hq; by apply Hmono2, Hmono1|].
  intros cb. rewrite (WithDatumCache_steps _ _ _ _ cb Hd Ho).
  fold datum stats w0. unfold with_cache_dirs, bind at 1. rewrite E1.
  unfold with_defer at 1 3. unfold bind. by rewrite E2.
Qed.

Lemma WithDatumCache_not_called (w : World) (md : ptr) (d : MockDriver)
  (o : MockOptions.t) :
  driver_at w md = Some d -> options_at w (options d) = Some o ->
  callback_world o w = None ->
  exists e w',
    (forall q k, os.under (datum_dir o (next_run_id w)) q = false ->
                 disk w !! q = Some k -> disk w' !! q = Some k)
    /\ forall cb, WithDatumCache md cb w = Returned (Some e) w'.
Proof.
  intros Hd Ho Hcw. unfold callback_world in Hcw. cbv zeta in Hcw.
  set (datum := datum_dir o (next_run_id w)) in *.
  set (stats := stats_dir o (next_run_id w)) in *.
  set (w0 := set_uuid_drawn (S (uuid_drawn w)) w) in *.
  destruct (OsFacts.MkdirAll_spec datum 511 w0)
    as (err1 & d1 & E1 & Hmono1 & _).
  rewrite E1 in Hcw. destruct err1 as [e|].
  { exists e, (set_disk d1 w0). split; [intros q k _; apply Hmono1|].
    intros cb. rewrite (WithDatumCache_steps _ _ _ _ cb Hd Ho).
    fold datum stats w0. unfold with_cache_dirs, bind. by rewrite E1. }
  destruct (OsFacts.MkdirAll_spec stats 511 (set_disk d1 w0))
    as (err2 & d2 & E2 & Hmono2 & _).
  rewrite E2 in Hcw. destruct err2 as [e|]; [|done].
  destruct (remove_cache_outcome datum (Some e) (set_disk d2 (set_disk d1 w0)))
    as (err3 & d3 & E3 & Hout3 & _).
  exists e, (set_disk d3 (set_disk d2 (set_disk d1 w0))). split.
  { intros q k Hq Hk. wsimpl. rewrite (Hout3 q Hq). wsimpl.
    by apply Hmono2, Hmono1. }
  intros cb. rewrite (WithDatumCache_steps _ _ _ _ cb Hd Ho).
  fold datum stats w0. unfold with_cache_dirs, bind at 1. rewrite E1.
  unfold with_defer, bind. rewrite E2. unfold ret. exact E3.
Qed.

Lemma with_defer_remove_keeps (path : string) (body : M (option error))
  (w : World) (q : string) (k : FileKind) :
  os.under path q = false ->
  disk (world_of (body w)) !! q = Some k ->
  disk (world_of (with_defer (remove_cache path) None body w)) !! q
  = Some k.
Proof.
  intros Hq Hk. unfold with_defer.
  destruct (body w) as [r w3|w3]; wsimpl.
  - destruct (remove_cache_outcome path r w3) as (err & d' & E & Hout & _).
    rewrite E. wsimpl. by rewrite (Hout q Hq).
  - destruct (remove_cache_outcome path None w3) as (err & d' & E & Hout & _).
    rewrite E. wsimpl. by rewrite (Hout q Hq).
Qed.

(** When a directory of a fresh run cannot be made, the error of
    [WithDatumCache] is that of the [os.MkdirAll] that failed; nothing is
    left of the stats directory, and nothing of the datum directory
    unless its removal fails. *)
Lemma WithDatumCache_creation_fails (w : World) (md : ptr) (d : MockDriver)
  (o : MockOptions.t) :
  driver_at w md = Some d -> options_at w (options d) = Some o ->
  fresh_run w o -> callback_world o w = None ->
  let datum := datum_dir o (next_run_id w) in
  let stats := stats_dir o (next_run_id w) in
  let w0 := set_uuid_drawn (S (uuid_drawn w)) w in
  exists e w',
    (forall cb, WithDatumCache md cb w = Returned (Some e) w')
    /\ ((exists w1, os.MkdirAll datum 511 w0 = Returned (Some e) w1)
        \/ (exists w1 w2,
              os.MkdirAll datum 511 w0 = Returned None w1
              /\ os.MkdirAll stats 511 w1 = Returned (Some e) w2))
    /\ (remove_fault w datum = None -> gone w' datum)
    /\ gone w' stats.
Proof.
  intros Hd Ho (Hid & Hgd & Hgs) Hcw datum stats w0.
  unfold callback_world in Hcw. cbv zeta in Hcw.
  destruct (run_dirs_plain o _ Hid)
    as (_ & _ & Hddot & Hsdot & Hdne & Hsne & Hlt).
  fold datum stats w0 in Hcw, Hddot, Hsdot, Hdne, Hsne, Hlt, Hgd, Hgs.
  destruct (OsFacts.MkdirAll_spec datum 511 w0)
    as (err1 & d1 & E1 & Hmono1 & Hlen1 & Hbelow1 & Hok1 & Hfail1).
  assert (Hgs1 : gone (set_disk d1 w0) stats)
    by (by eapply gone_after_shorter).
  rewrite E1 in Hcw. destruct err1 as [e|].
  { exists e, (set_disk d1 w0). split.
    { intros cb. rewrite (WithDatumCache_steps _ _ _ _ cb Hd Ho).
      fold datum stats w0. unfold with_cache_dirs, bind. by rewrite E1. }
    split; [left; by eexists|]. split; [|exact Hgs1]. intros _.
    destruct Hfail1 as [Hsame _]; [done|]. by apply gone_after_failure. }
  destruct (OsFacts.MkdirAll_spec stats 511 (set_disk d1 w0))
    as (err2 & d2 & E2 & Hmono2 & Hlen2 & Hbelow2 & Hok2 & Hfail2).
  rewrite E2 in Hcw. destruct err2 as [e|]; [|done].
  destruct Hfail2 as [Hsame _]; [done|].
  assert (Hgs2 : gone (set_disk d2 (set_disk d1 w0)) stats)
    by (by apply gone_after_failure).
  destruct (remove_cache_outcome datum (Some e)
              (set_disk d2 (set_disk d1 w0)))
    as (err3 & d3 & E3 & _ & Hf3 & Hgone3 & Hshrink3 & _).
  exists e, (set_disk d3 (set_disk d2 (set_disk d1 w0))). split.
  { intros cb. rewrite (WithDatumCache_steps _ _ _ _ cb Hd Ho).
    fold datum stats w0. unfold with_cache_dirs, bind at 1. rewrite E1.
    unfold with_defer, bind. rewrite E2. unfold ret. exact E3. }
  split; [right; by eexists _, _|].
  split; [|by apply gone_set_disk_shrink].
  intros Hf. apply Hgone3; [done|]. by rewrite Hf3.
Qed.

(** C1, as stated, fails: when the removal of a cache directory fails,
    the directory is still there after [WithDatumCache] has returned;
    and when the callback failed too, the caller only sees the
    callback's error. *)
Lemma WithDatumCache_keeps_directory :
  datum_dir sample_options (next_run_id (world_keeping "/tmp/ht/datum/run0"))
  = "/tmp/ht/datum/run0"
  /\ exists w',
       WithDatumCache (addr 0) cb_fails (world_keeping "/tmp/ht/datum/run0")
       = Returned (Some (ErrOther "datum failed")) w'
       /\ disk w' !! "/tmp/ht/datum/run0" = Some Dir
       /\ ~ gone w' "/tmp/ht/datum/run0".
Proof.
  split; [reflexivity|]. eexists. split; [vm_compute; reflexivity|].
  assert (Hdir : disk
            (world_of (WithDatumCache (addr 0) cb_fails
                         (world_keeping "/tmp/ht/datum/run0")))
            !! "/tmp/ht/datum/run0" = Some Dir)
    by (vm_compute; reflexivity).
  split; [exact Hdir|].
  intros Hgone. specialize (Hgone "/tmp/ht/datum/run0" eq_refl).
  vm_compute in Hgone. discriminate Hgone.
Qed.

(** C1, amended: the run of [WithDatumCache] with a fresh run
    identifier, on each of its ways out.

    A directory cannot be made: the error of the [os.MkdirAll] that
    failed is returned without the callback being called; the datum
    directory, if it is the stats directory that could not be made, is
    removed unless its removal fails.

    Both are made: the callback is called with the caches of the two
    directories, both existing. Whether it returns nil, returns an error
    or panics, both removals are then attempted, and a directory whose
    removal does not fail is gone, nothing left at or below it. The
    callback's error is the result when there is one; the error of a
    removal is the result only when the callback returned nil, that of
    the stats directory before that of the datum directory; a panic goes
    on.

    So a nil result means both directories are gone. *)
Theorem WithDatumCache_removes_run_dirs (w : World) (md : ptr)
  (d : MockDriver) (o : MockOptions.t) :
  driver_at w md = Some d -> options_at w (options d) = Some o ->
  fresh_run w o ->
  let datum := datum_dir o (next_run_id w) in
  let stats := stats_dir o (next_run_id w) in
  let w0 := set_uuid_drawn (S (uuid_drawn w)) w in
  (callback_world o w = None ->
   exists e w',
     (forall cb, WithDatumCache md cb w = Returned (Some e) w')
     /\ ((exists w1, os.MkdirAll datum 511 w0 = Returned (Some e) w1)
         \/ (exists w1 w2,
               os.MkdirAll datum 511 w0 = Returned None w1
               /\ os.MkdirAll stats 511 w1 = Returned (Some e) w2))
     /\ (remove_fault w datum = None -> gone w' datum)
     /\ gone w' stats)
  /\ (forall w2,
        callback_world o w = Some w2 ->
        is_dir w2 datum = true
        /\ is_dir w2 stats = true
        /\ forall cb,
             let called :=
               cb (hashtree.NewMergeCache datum)
                  (hashtree.NewMergeCache stats) w2 in
             exists w',
               WithDatumCache md cb w
               = match called with
                 | Returned (Some e) _ => Returned (Some e) w'
                 | Returned None w3 =>
                     Returned
                       match remove_fault w3 stats with
                       | Some e => Some e
                       | None => remove_fault w3 datum
                       end w'
                 | Panicked _ => Panicked w'
                 end
               /\ (remove_fault (world_of called) datum = None ->
                   gone w' datum)
               /\ (remove_fault (world_of called) stats = None ->
                   gone w' stats))
  /\ (forall cb w',
        WithDatumCache md cb w = Returned None w' ->
        gone w' datum /\ gone w' stats).
Proof.
  intros Hd Ho Hfresh datum stats w0.
  pose proof Hfresh as (Hid & _ & _).
  destruct (run_dirs_plain o _ Hid)
    as (_ & _ & Hddot & Hsdot & Hdne & Hsne & _).
  fold datum stats in Hddot, Hsdot, Hdne, Hsne.
  assert (Hmade : forall w2,
    callback_world o w = Some w2 ->
    forall cb,
      let called :=
        cb (hashtree.NewMergeCache datum) (hashtree.NewMergeCache stats) w2 in
      exists w',
        WithDatumCache md cb w
        = match called with
          | Returned (Some e) _ => Returned (Some e) w'
          | Returned None w3 =>
              Returned
                match remove_fault w3 stats with
                | Some e => Some e
                | None => remove_fault w3 datum
                end w'
          | Panicked _ => Panicked w'
          end
        /\ (remove_fault (world_of called) datum = None -> gone w' datum)
        /\ (remove_fault (world_of called) stats = None -> gone w' stats)).
  { intros w2 Hcw cb called.
    destruct (WithDatumCache_called _ _ _ _ _ Hd Ho Hcw)
      as (_ & _ & _ & _ & Hcalled).
    rewrite Hcalled. fold datum stats. unfold with_defer. fold called.
    assert (Hboth : forall r w3,
      remove_fault w3 = remove_fault (world_of called) ->
      exists r' d4 d5,
        remove_cache stats r w3 = Returned r' (set_disk d4 w3)
        /\ remove_cache datum r' (set_disk d4 w3)
           = Returned
               match r with
               | Some e => Some e
               | None =>
                   match remove_fault w3 stats with
                   | Some e => Some e
                   | None => remove_fault w3 datum
                   end
               end (set_disk d5 (set_disk d4 w3))
        /\ (remove_fault (world_of called) datum = None ->
            gone (set_disk d5 (set_disk d4 w3)) datum)
        /\ (remove_fault (world_of called) stats = None ->
            gone (set_disk d5 (set_disk d4 w3)) stats)).
    { intros r w3 Hfaults.
      destruct (remove_cache_outcome stats r w3)
        as (err4 & d4 & E4 & _ & Hf4 & Hgone4 & _).
      destruct (remove_cache_outcome datum
                  (match r with None => err4 | Some _ => r end)
                  (set_disk d4 w3))
        as (err5 & d5 & E5 & _ & Hf5 & Hgone5 & Hshrink5 & _).
      specialize (Hf4 Hsne Hsdot). specialize (Hf5 Hdne Hddot). wsimpl.
      eexists _, d4, d5. split; [exact E4|]. split.
      { rewrite E5, <- Hf4, <- Hf5. by destruct r, err4. }
      rewrite <- Hfaults. split.
      - intros Hf. apply Hgone5; [done|]. by rewrite Hf5.
      - intros Hf. apply gone_set_disk_shrink; [exact Hshrink5|].
        apply Hgone4; [done|]. by rewrite Hf4. }
    destruct called as [r w3|w3] eqn:Ecalled.
    - destruct (Hboth r w3 eq_refl) as (r' & d4 & d5 & E4 & E5 & Hg).
      cbv beta iota. rewrite E4, E5. eexists. split; [|exact Hg].
      by destruct r.
    - clear Hboth. cbv beta iota. wsimpl.
      destruct (remove_cache_outcome stats None w3)
        as (err4 & d4 & E4 & _ & Hf4 & Hgone4 & _).
      rewrite E4. wsimpl.
      destruct (remove_cache_outcome datum None (set_disk d4 w3))
        as (err5 & d5 & E5 & _ & Hf5 & Hgone5 & Hshrink5 & _).
      rewrite E5. wsimpl.
      specialize (Hf4 Hsne Hsdot). specialize (Hf5 Hdne Hddot). wsimpl.
      eexists. split; [reflexivity|]. split.
      + intros Hf. apply Hgone5; [done|]. by rewrite Hf5.
      + intros Hf. apply gone_set_disk_shrink; [exact Hshrink5|].
        apply Hgone4; [done|]. by rewrite Hf4. }
  split; [by apply (WithDatumCache_creation_fails w md d o)|]. split.
  - intros w2 Hcw.
    destruct (WithDatumCache_called _ _ _ _ _ Hd Ho Hcw)
      as (Hdd & Hds & _).
    split; [exact Hdd|]. split; [exact Hds|]. by apply Hmade.
  - intros cb w' Hrun.
    destruct (callback_world o w) as [w2|] eqn:Hcw.
    + destruct (Hmade w2 eq_refl cb) as (w'' & Hout & Hgd & Hgs).
      rewrite Hrun in Hout. cbv zeta in Hout, Hgd, Hgs.
      destruct (cb _ _ w2) as [[e|] w3|w3]; [done| |done].
      injection Hout as Hr <-. wsimpl.
      destruct (remove_fault w3 stats); [done|].
      split; [by apply Hgd|by apply Hgs].
    + destruct (WithDatumCache_creation_fails _ _ _ _ Hd Ho Hfresh Hcw)
        as (e & w'' & Hnot & _).
      by rewrite Hnot in Hrun.
Qed.

Lemma WithDatumCache_removes_run_dirs_witness :
  fresh_run world_with_driver sample_options
  /\ datum_dir sample_options (next_run_id world_with_driver)
     = "/tmp/ht/datum/run0"
  /\ stats_dir sample_options (next_run_id world_with_driver)
     = "/tmp/ht/datumStats/run0"
  /\ exists w',
       WithDatumCache (addr 0) cb_ok world_with_driver = Returned None w'
       /\ gone w' "/tmp/ht/datum/run0"
       /\ gone w' "/tmp/ht/datumStats/run0".
Proof.
  assert (Hempty : forall dir, gone world_with_driver dir).
  { intros dir q _. apply lookup_empty. }
  assert (Hfresh : fresh_run world_with_driver sample_options).
  { split; [reflexivity|]. split; apply Hempty. }
  split; [exact Hfresh|]. split; [reflexivity|]. split; [reflexivity|].
  eexists. split; [vm_compute; reflexivity|].
  apply (proj2 (proj2
    (WithDatumCache_removes_run_dirs world_with_driver (addr 0)
       sample_driver sample_options eq_refl eq_refl Hfresh)) cb_ok).
  vm_compute. reflexivity.
Defined.







(** ** Further properties of the driver's heap objects *)

Lemma WithCtx_returns (w : World) (md : ptr) (d : MockDriver) (c : Context) :
  driver_at w md = Some d ->
  WithCtx md c w
  = Returned (addr (length (heap_drivers w)))
      (set_heap_drivers (heap_drivers w ++ [set_ctx c d]) w).
Proof.
  intros Hd. destruct md as [|a]; [done|]. simpl in Hd.
  unfold WithCtx. go.
  rewrite (lookup_snoc_old _ _ _ _ Hd). wsimpl.
  rewrite lookup_snoc_new. wsimpl.
  rewrite insert_snoc, lookup_snoc_new. wsimpl.
  rewrite lookup_snoc_new. wsimpl.
  rewrite insert_snoc. reflexivity.
Qed.

Lemma PipelineInfo_at (w : World) (md : ptr) (d : MockDriver)
  (o : MockOptions.t) :
  driver_at w md = Some d -> options_at w (options d) = Some o ->
  PipelineInfo md w = Returned (MockOptions.PipelineInfo o) w.
Proof.
  intros Hd Ho. unfold PipelineInfo, bind, ret.
  rewrite (load_driver_at _ _ _ Hd). by rewrite (load_options_at _ _ _ Ho).
Qed.

Lemma store_options_at (w : World) (a : nat) (o o' : MockOptions.t) :
  heap_options w !! a = Some o ->
  store_options (addr a) o' w
  = Returned tt (set_heap_options (<[a:=o']> (heap_options w)) w).
Proof. intros H. unfold store_options. by rewrite H. Qed.

Lemma with_defaults_fields (u : MockOptions.t) :
  MockOptions.NumWorkers (with_defaults u)
  = (if MockOptions.NumWorkers u =? 0 then 1 else MockOptions.NumWorkers u)
  /\ MockOptions.NumShards (with_defaults u)
     = (if MockOptions.NumShards u =? 0 then 1 else MockOptions.NumShards u)
  /\ MockOptions.PipelineInfo (with_defaults u) = MockOptions.PipelineInfo u
  /\ MockOptions.EtcdPrefix (with_defaults u) = MockOptions.EtcdPrefix u.
Proof.
  unfold with_defaults.
  destruct (MockOptions.NumWorkers u =? 0) eqn:E1;
    cbn [MockOptions.set_NumWorkers MockOptions.NumShards];
    destruct (MockOptions.NumShards u =? 0) eqn:E2;
    cbn; rewrite ?E1, ?E2; done.
Qed.

(** X1: The clone [WithCtx] makes shares the options object of the driver it
    was made from ([*result = *md] copies the pointer): whatever is
    written to that object afterwards is what both drivers report, as
    the number of workers, the number of shards and the pipeline. *)
Theorem WithCtx_shares_options (w : World) (md : ptr) (d : MockDriver)
  (o o' : MockOptions.t) (c : Context) :
  driver_at w md = Some d -> options_at w (options d) = Some o ->
  exists result w1 w2,
    WithCtx md c w = Returned result w1
    /\ result <> md
    /\ store_options (options d) o' w1 = Returned tt w2
    /\ GetExpectedNumWorkers md w2
       = Returned (MockOptions.NumWorkers o', None) w2
    /\ GetExpectedNumWorkers result w2
       = Returned (MockOptions.NumWorkers o', None) w2
    /\ NumShards md w2 = Returned (int64 (MockOptions.NumShards o')) w2
    /\ NumShards result w2
       = Returned (int64 (MockOptions.NumShards o')) w2
    /\ PipelineInfo md w2 = Returned (MockOptions.PipelineInfo o') w2
    /\ PipelineInfo result w2 = Returned (MockOptions.PipelineInfo o') w2.
Proof.
  intros Hd Ho.
  rewrite (WithCtx_returns _ _ _ c Hd).
  destruct (options d) as [|a] eqn:Hopt; [done|]. simpl in Ho.
  set (w1 := set_heap_drivers (heap_drivers w ++ [set_ctx c d]) w).
  set (w2 := set_heap_options (<[a:=o']> (heap_options w1)) w1).
  exists (addr (length (heap_drivers w))), w1, w2.
  assert (Hlt : (a < length (heap_options w))%nat)
    by (eapply lookup_lt_Some; eauto).
  assert (Hd2 : driver_at w2 md = Some d).
  { destruct md as [|m]; [done|]. simpl in *. by apply lookup_snoc_old. }
  assert (Hr2 : driver_at w2 (addr (length (heap_drivers w)))
                = Some (set_ctx c d)).
  { simpl. apply lookup_snoc_new. }
  assert (Ho2 : options_at w2 (options d) = Some o').
  { rewrite Hopt. simpl. by apply list_lookup_insert_eq. }
  assert (Ho2' : options_at w2 (options (set_ctx c d)) = Some o')
    by exact Ho2.
  split; [reflexivity|]. split.
  { destruct md as [|m]; [done|]. simpl in Hd.
    apply lookup_lt_Some in Hd. intros [= E]. lia. }
  split; [by apply (store_options_at w1 a o)|].
  rewrite (GetExpectedNumWorkers_at _ _ _ _ Hd2 Ho2).
  rewrite (GetExpectedNumWorkers_at _ _ _ _ Hr2 Ho2').
  rewrite (NumShards_at _ _ _ _ Hd2 Ho2), (NumShards_at _ _ _ _ Hr2 Ho2').
  rewrite (PipelineInfo_at _ _ _ _ Hd2 Ho2).
  by rewrite (PipelineInfo_at _ _ _ _ Hr2 Ho2').
Qed.

Lemma WithCtx_shares_options_witness :
  exists result w1 w2,
    WithCtx (addr 0) (Cancelled Background) world_with_driver
    = Returned result w1
    /\ result <> addr 0
    /\ store_options (options sample_driver) other_options w1
       = Returned tt w2
    /\ GetExpectedNumWorkers (addr 0) w2 = Returned (9, None) w2
    /\ GetExpectedNumWorkers result w2 = Returned (9, None) w2
    /\ NumShards (addr 0) w2 = Returned (int64 8) w2
    /\ NumShards result w2 = Returned (int64 8) w2
    /\ PipelineInfo (addr 0) w2 = Returned None w2
    /\ PipelineInfo result w2 = Returned None w2.
Proof.
  apply (WithCtx_shares_options world_with_driver (addr 0) sample_driver
           sample_options other_options (Cancelled Background));
    reflexivity.
Defined.

(** X2: The driver [NewMockDriver] makes has its own copy of the options
    ([*options = *userOptions]): what the caller writes to its options
    afterwards does not reach the driver, which goes on reporting the
    values it was made with. *)
Theorem NewMockDriver_keeps_its_copy (w : World) (c : option EtcdClient)
  (p : ptr) (u u' : MockOptions.t) :
  options_at w p = Some u ->
  exists md w1 w2,
    NewMockDriver c p w = Returned md w1
    /\ store_options p u' w1 = Returned tt w2
    /\ options_at w2 p = Some u'
    /\ GetExpectedNumWorkers md w2
       = Returned (if MockOptions.NumWorkers u =? 0 then 1
                   else MockOptions.NumWorkers u, None) w2
    /\ NumShards md w2
       = Returned (int64 (if MockOptions.NumShards u =? 0 then 1
                          else MockOptions.NumShards u)) w2
    /\ PipelineInfo md w2 = Returned (MockOptions.PipelineInfo u) w2.
Proof.
  intros Hp. rewrite (NewMockDriver_returns _ c _ _ Hp).
  destruct p as [|a]; [done|]. simpl in Hp.
  assert (Hlt : (a < length (heap_options w))%nat)
    by (eapply lookup_lt_Some; eauto).
  set (w1 := set_heap_drivers _ _).
  set (w2 := set_heap_options (<[a:=u']> (heap_options w1)) w1).
  exists (addr (length (heap_drivers w))), w1, w2.
  assert (Hd2 : driver_at w2 (addr (length (heap_drivers w)))
                = Some (constructed c (addr (length (heap_options w)))
                          (with_defaults u))).
  { simpl. apply lookup_snoc_new. }
  assert (Ho2 : options_at w2
                  (options (constructed c (addr (length (heap_options w)))
                              (with_defaults u)))
                = Some (with_defaults u)).
  { rewrite constructed_options. simpl.
    rewrite list_lookup_insert_ne by lia. apply lookup_snoc_new. }
  destruct (with_defaults_fields u) as (E1 & E2 & E3 & _).
  split; [reflexivity|]. split.
  { apply (store_options_at w1 a u). simpl. by apply lookup_snoc_old. }
  split.
  { simpl. apply list_lookup_insert_eq. rewrite length_app. simpl. lia. }
  rewrite (GetExpectedNumWorkers_at _ _ _ _ Hd2 Ho2), E1.
  rewrite (NumShards_at _ _ _ _ Hd2 Ho2), E2.
  by rewrite (PipelineInfo_at _ _ _ _ Hd2 Ho2), E3.
Qed.

Lemma NewMockDriver_keeps_its_copy_witness :
  exists md w1 w2,
    NewMockDriver (Some 7%nat) (addr 0) (world_with_options sample_options)
    = Returned md w1
    /\ store_options (addr 0) other_options w1 = Returned tt w2
    /\ options_at w2 (addr 0) = Some other_options
    /\ GetExpectedNumWorkers md w2 = Returned (1, None) w2
    /\ NumShards md w2 = Returned (int64 3) w2
    /\ PipelineInfo md w2
       = Returned (MockOptions.PipelineInfo sample_options) w2.
Proof.
  apply (NewMockDriver_keeps_its_copy (world_with_options sample_options)
           (Some 7%nat) (addr 0) sample_options other_options).
  reflexivity.
Defined.

(** X3: Whatever the caller's options are, a negative number included, the
    driver [NewMockDriver] makes never reports zero workers, and it never
    reports zero shards when the caller's number of shards fits 64
    bits. *)
Theorem NewMockDriver_never_zero (w : World) (c : option EtcdClient)
  (p : ptr) (u : MockOptions.t) :
  options_at w p = Some u ->
  exists md w1 n s,
    NewMockDriver c p w = Returned md w1
    /\ GetExpectedNumWorkers md w1 = Returned (n, None) w1
    /\ NumShards md w1 = Returned s w1
    /\ n <> 0
    /\ (- 2 ^ 63 <= MockOptions.NumShards u < 2 ^ 63 -> s <> 0).
Proof.
  intros Hp. rewrite (NewMockDriver_returns _ c _ _ Hp).
  set (w1 := set_heap_drivers _ _).
  assert (Hd1 : driver_at w1 (addr (length (heap_drivers w)))
                = Some (constructed c (addr (length (heap_options w)))
                          (with_defaults u))).
  { simpl. apply lookup_snoc_new. }
  assert (Ho1 : options_at w1
                  (options (constructed c (addr (length (heap_options w)))
                              (with_defaults u)))
                = Some (with_defaults u)).
  { rewrite constructed_options. simpl. apply lookup_snoc_new. }
  destruct (with_defaults_fields u) as (E1 & E2 & _).
  exists (addr (length (heap_drivers w))), w1,
    (MockOptions.NumWorkers (with_defaults u)),
    (int64 (MockOptions.NumShards (with_defaults u))).
  split; [reflexivity|].
  split; [exact (GetExpectedNumWorkers_at _ _ _ _ Hd1 Ho1)|].
  split; [exact (NumShards_at _ _ _ _ Hd1 Ho1)|].
  split.
  - rewrite E1. destruct (Z.eqb_spec (MockOptions.NumWorkers u) 0); lia.
  - intros Hr. rewrite E2.
    destruct (Z.eqb_spec (MockOptions.NumShards u) 0) as [E|E].
    + by vm_compute.
    + rewrite int64_in_range by exact Hr. exact E.
Qed.

Lemma NewMockDriver_never_zero_witness :
  exists md w1 n s,
    NewMockDriver None (addr 0) (world_with_options negative_options)
    = Returned md w1
    /\ GetExpectedNumWorkers md w1 = Returned (n, None) w1
    /\ NumShards md w1 = Returned s w1
    /\ n <> 0
    /\ (- 2 ^ 63 <= MockOptions.NumShards negative_options < 2 ^ 63
        -> s <> 0).
Proof.
  apply (NewMockDriver_never_zero (world_with_options negative_options)
           None (addr 0) negative_options).
  reflexivity.
Defined.

(** X4: [NewMockDriver] reads through [userOptions]: called with a nil
    pointer it panics. No driver has been allocated by then, and the
    options objects there were are as they were. *)
Theorem NewMockDriver_nil_options (w : World) (c : option EtcdClient) :
  exists w',
    NewMockDriver c nil w = Panicked w'
    /\ heap_drivers w' = heap_drivers w
    /\ (forall p o, options_at w p = Some o -> options_at w' p = Some o)
    /\ disk w' = disk w /\ etcd w' = etcd w.
Proof.
  eexists. split; [unfold NewMockDriver; go; reflexivity|].
  wsimpl. split; [reflexivity|]. split; [|done].
  intros [|a] o; simpl; [done|]. apply lookup_snoc_old.
Qed.

(** X5: The driver and its [KubeWrapper] are asked the same question and
    answer independently: the wrapper always says one worker, the driver
    says what it was made with. The two agree exactly when the caller's
    [NumWorkers] was 0 or 1. *)
Theorem KubeWrapper_agrees_iff (w : World) (c : option EtcdClient)
  (p : ptr) (u : MockOptions.t) (spec : option pps.ParallelismSpec) :
  options_at w p = Some u ->
  exists md w1,
    NewMockDriver c p w = Returned md w1
    /\ (GetExpectedNumWorkers md w1
        = Returned
            (MockKubeWrapper.GetExpectedNumWorkers (KubeWrapper md) spec) w1
        <-> MockOptions.NumWorkers u = 0 \/ MockOptions.NumWorkers u = 1).
Proof.
  intros Hp. rewrite (NewMockDriver_returns _ c _ _ Hp).
  set (w1 := set_heap_drivers _ _).
  assert (Hd1 : driver_at w1 (addr (length (heap_drivers w)))
                = Some (constructed c (addr (length (heap_options w)))
                          (with_defaults u))).
  { simpl. apply lookup_snoc_new. }
  assert (Ho1 : options_at w1
                  (options (constructed c (addr (length (heap_options w)))
                              (with_defaults u)))
                = Some (with_defaults u)).
  { rewrite constructed_options. simpl. apply lookup_snoc_new. }
  destruct (with_defaults_fields u) as (E1 & _).
  exists (addr (length (heap_drivers w))), w1.
  split; [reflexivity|].
  rewrite (GetExpectedNumWorkers_at _ _ _ _ Hd1 Ho1), E1.
  unfold MockKubeWrapper.GetExpectedNumWorkers.
  destruct (Z.eqb_spec (MockOptions.NumWorkers u) 0) as [E|E].
  - split; [by left|done].
  - split; [intros [= H]; by right|].
    intros [H|H]; [done|]. by rewrite H.
Qed.

Lemma KubeWrapper_agrees_iff_witness :
  exists md w1,
    NewMockDriver None (addr 0) (world_with_options rootless_options)
    = Returned md w1
    /\ (GetExpectedNumWorkers md w1
        = Returned
            (MockKubeWrapper.GetExpectedNumWorkers (KubeWrapper md) None) w1
        <-> MockOptions.NumWorkers rootless_options = 0
            \/ MockOptions.NumWorkers rootless_options = 1).
Proof.
  apply (KubeWrapper_agrees_iff (world_with_options rootless_options)
           None (addr 0) rootless_options None).
  reflexivity.
Defined.

(** ** The driver's contract *)



(** ** Further properties of [WithDatumCache] *)

(** X6: [WithDatumCache] reports success only for a callback that ran and
    succeeded: when it returns nil, both directories were made, the
    callback was called with their two caches while both existed, and
    the callback returned nil. *)
Theorem WithDatumCache_nil_result (w w' : World) (md : ptr) (d : MockDriver)
  (o : MockOptions.t)
  (cb : hashtree.MergeCache -> hashtree.MergeCache -> M (option error)) :
  driver_at w md = Some d -> options_at w (options d) = Some o ->
  WithDatumCache md cb w = Returned None w' ->
  exists w2 w3,
    callback_world o w = Some w2
    /\ is_dir w2 (datum_dir o (next_run_id w)) = true
    /\ is_dir w2 (stats_dir o (next_run_id w)) = true
    /\ cb (hashtree.NewMergeCache (datum_dir o (next_run_id w)))
          (hashtree.NewMergeCache (stats_dir o (next_run_id w))) w2
       = Returned None w3.
Proof.
  intros Hd Ho Hrun.
  destruct (callback_world o w) as [w2|] eqn:Hcw.
  - destruct (WithDatumCache_called _ _ _ _ _ Hd Ho Hcw)
      as (Hdd & Hds & _ & _ & Hcalled).
    rewrite Hcalled in Hrun. unfold with_defer in Hrun.
    destruct (cb _ _ w2) as [r w3|w3] eqn:Ecb; [|done].
    exists w2, w3. repeat (split; [done|]).
    destruct (remove_cache_outcome (stats_dir o (next_run_id w)) r w3)
      as (err4 & d4 & E4 & _).
    rewrite E4 in Hrun.
    destruct (remove_cache_outcome (datum_dir o (next_run_id w))
                (match r with None => err4 | Some _ => r end)
                (set_disk d4 w3)) as (err5 & d5 & E5 & _).
    rewrite E5 in Hrun. destruct r as [e|]; [done|exact Ecb].
  - destruct (WithDatumCache_not_called _ _ _ _ Hd Ho Hcw)
      as (e & w1 & _ & Hnot).
    by rewrite Hnot in Hrun.
Qed.

Lemma WithDatumCache_nil_result_witness :
  exists w2 w3,
    callback_world sample_options world_with_driver = Some w2
    /\ is_dir w2 (datum_dir sample_options (next_run_id world_with_driver))
       = true
    /\ is_dir w2 (stats_dir sample_options (next_run_id world_with_driver))
       = true
    /\ cb_ok
         (hashtree.NewMergeCache
            (datum_dir sample_options (next_run_id world_with_driver)))
         (hashtree.NewMergeCache
            (stats_dir sample_options (next_run_id world_with_driver))) w2
       = Returned None w3.
Proof.
  apply (WithDatumCache_nil_result world_with_driver
           (world_of (WithDatumCache (addr 0) cb_ok world_with_driver))
           (addr 0) sample_driver sample_options cb_ok);
    [reflexivity|reflexivity|vm_compute; reflexivity].
Defined.

(** X7: The error of the callback is the error of [WithDatumCache], whatever
    becomes of the two removals: an error of [os.RemoveAll] never takes
    its place. *)
Theorem WithDatumCache_returns_callback_error (w w2 w3 : World) (md : ptr)
  (d : MockDriver) (o : MockOptions.t) (e : error)
  (cb : hashtree.MergeCache -> hashtree.MergeCache -> M (option error)) :
  driver_at w md = Some d -> options_at w (options d) = Some o ->
  callback_world o w = Some w2 ->
  cb (hashtree.NewMergeCache (datum_dir o (next_run_id w)))
     (hashtree.NewMergeCache (stats_dir o (next_run_id w))) w2
  = Returned (Some e) w3 ->
  exists w', WithDatumCache md cb w = Returned (Some e) w'.
Proof.
  intros Hd Ho Hcw Hcb.
  destruct (WithDatumCache_called _ _ _ _ _ Hd Ho Hcw)
    as (_ & _ & _ & _ & Hcalled).
  rewrite Hcalled. unfold with_defer. rewrite Hcb.
  destruct (remove_cache_outcome (stats_dir o (next_run_id w)) (Some e) w3)
    as (err4 & d4 & E4 & _).
  rewrite E4.
  destruct (remove_cache_outcome (datum_dir o (next_run_id w)) (Some e)
              (set_disk d4 w3)) as (err5 & d5 & E5 & _).
  rewrite E5. by eexists.
Qed.

Lemma WithDatumCache_returns_callback_error_witness :
  exists w',
    WithDatumCache (addr 0) cb_fails (world_keeping "/tmp/ht/datum/run0")
    = Returned (Some (ErrOther "datum failed")) w'.
Proof.
  apply (WithDatumCache_returns_callback_error
           (world_keeping "/tmp/ht/datum/run0")
           (default world0
              (callback_world sample_options
                 (world_keeping "/tmp/ht/datum/run0")))
           (default world0
              (callback_world sample_options
                 (world_keeping "/tmp/ht/datum/run0")))
           (addr 0) sample_driver sample_options
           (ErrOther "datum failed") cb_fails);
    [reflexivity|reflexivity|vm_compute; reflexivity|reflexivity].
Defined.

(** X8: A panic of the callback is not recovered: [WithDatumCache] panics
    too, after the deferred removals have run, so that a directory whose
    removal does not fail is gone all the same. *)
Theorem WithDatumCache_panics_with_callback (w w2 w3 : World) (md : ptr)
  (d : MockDriver) (o : MockOptions.t)
  (cb : hashtree.MergeCache -> hashtree.MergeCache -> M (option error)) :
  driver_at w md = Some d -> options_at w (options d) = Some o ->
  Filepath.plain (next_run_id w) = true ->
  callback_world o w = Some w2 ->
  cb (hashtree.NewMergeCache (datum_dir o (next_run_id w)))
     (hashtree.NewMergeCache (stats_dir o (next_run_id w))) w2
  = Panicked w3 ->
  exists w',
    WithDatumCache md cb w = Panicked w'
    /\ (remove_fault w3 (datum_dir o (next_run_id w)) = None ->
        gone w' (datum_dir o (next_run_id w)))
    /\ (remove_fault w3 (stats_dir o (next_run_id w)) = None ->
        gone w' (stats_dir o (next_run_id w))).
Proof.
  intros Hd Ho Hplain Hcw Hcb.
  destruct (run_dirs_plain o _ Hplain)
    as (_ & _ & Hdotd & Hdots & Hned & Hnes & Hlen).
  destruct (WithDatumCache_called _ _ _ _ _ Hd Ho Hcw)
    as (_ & _ & _ & _ & Hcalled).
  rewrite Hcalled. unfold with_defer. rewrite Hcb.
  set (datum := datum_dir o (next_run_id w)) in *.
  set (stats := stats_dir o (next_run_id w)) in *.
  destruct (remove_cache_outcome stats None w3)
    as (err4 & d4 & E4 & Hout4 & Hf4 & Hgone4 & _).
  rewrite E4. wsimpl.
  destruct (remove_cache_outcome datum None (set_disk d4 w3))
    as (err5 & d5 & E5 & Hout5 & Hf5 & Hgone5 & Hshrink5 & _).
  rewrite E5. wsimpl. eexists. split; [reflexivity|]. split.
  - intros Hf. apply Hgone5; [done|]. rewrite Hf5 by done. exact Hf.
  - intros Hf. apply gone_set_disk_shrink; [exact Hshrink5|].
    apply Hgone4; [done|]. rewrite Hf4 by done. exact Hf.
Qed.

Lemma WithDatumCache_panics_with_callback_witness :
  exists w',
    WithDatumCache (addr 0) cb_panics world_with_driver = Panicked w'
    /\ (remove_fault world_with_driver "/tmp/ht/datum/run0" = None ->
        gone w' "/tmp/ht/datum/run0")
    /\ (remove_fault world_with_driver "/tmp/ht/datumStats/run0" = None ->
        gone w' "/tmp/ht/datumStats/run0").
Proof.
  apply (WithDatumCache_panics_with_callback world_with_driver
           (default world0 (callback_world sample_options world_with_driver))
           (default world0 (callback_world sample_options world_with_driver))
           (addr 0) sample_driver sample_options cb_panics);
    [reflexivity|reflexivity|vm_compute; reflexivity|vm_compute; reflexivity
    |reflexivity].
Defined.

(** X9: When the callback succeeds, the error of [WithDatumCache] is that of
    the removals, the stats directory's first: it is removed first, and
    the error of the datum directory's removal is reported only when that
    of the stats directory succeeded. Either removal is attempted
    whatever becomes of the other. *)
Theorem WithDatumCache_removal_errors (w w2 w3 : World) (md : ptr)
  (d : MockDriver) (o : MockOptions.t)
  (cb : hashtree.MergeCache -> hashtree.MergeCache -> M (option error)) :
  driver_at w md = Some d -> options_at w (options d) = Some o ->
  Filepath.plain (next_run_id w) = true ->
  callback_world o w = Some w2 ->
  cb (hashtree.NewMergeCache (datum_dir o (next_run_id w)))
     (hashtree.NewMergeCache (stats_dir o (next_run_id w))) w2
  = Returned None w3 ->
  exists w',
    WithDatumCache md cb w
    = Returned
        match remove_fault w3 (stats_dir o (next_run_id w)) with
        | Some e => Some e
        | None => remove_fault w3 (datum_dir o (next_run_id w))
        end w'
    /\ (remove_fault w3 (datum_dir o (next_run_id w)) = None ->
        gone w' (datum_dir o (next_run_id w)))
    /\ (remove_fault w3 (stats_dir o (next_run_id w)) = None ->
        gone w' (stats_dir o (next_run_id w))).
Proof.
  intros Hd Ho Hplain Hcw Hcb.
  destruct (run_dirs_plain o _ Hplain)
    as (_ & _ & Hdotd & Hdots & Hned & Hnes & Hlen).
  destruct (WithDatumCache_called _ _ _ _ _ Hd Ho Hcw)
    as (_ & _ & _ & _ & Hcalled).
  rewrite Hcalled. unfold with_defer. rewrite Hcb.
  set (datum := datum_dir o (next_run_id w)) in *.
  set (stats := stats_dir o (next_run_id w)) in *.
  destruct (remove_cache_outcome stats None w3)
    as (err4 & d4 & E4 & Hout4 & Hf4 & Hgone4 & _).
  rewrite E4. wsimpl.
  destruct (remove_cache_outcome datum err4 (set_disk d4 w3))
    as (err5 & d5 & E5 & Hout5 & Hf5 & Hgone5 & Hshrink5 & _).
  rewrite E5. wsimpl.
  specialize (Hf4 Hnes Hdots). specialize (Hf5 Hned Hdotd). wsimpl.
  eexists. split; [|split].
  - rewrite <- Hf4, <- Hf5. by destruct err4.
  - intros Hf. apply Hgone5; [done|]. by rewrite Hf5.
  - intros Hf. apply gone_set_disk_shrink; [exact Hshrink5|].
    apply Hgone4; [done|]. by rewrite Hf4.
Qed.

Lemma WithDatumCache_removal_errors_witness :
  exists w',
    WithDatumCache (addr 0) cb_ok (world_keeping "/tmp/ht/datumStats/run0")
    = Returned
        match remove_fault (world_keeping "/tmp/ht/datumStats/run0")
                "/tmp/ht/datumStats/run0" with
        | Some e => Some e
        | None => remove_fault (world_keeping "/tmp/ht/datumStats/run0")
                    "/tmp/ht/datum/run0"
        end w'
    /\ (remove_fault (world_keeping "/tmp/ht/datumStats/run0")
          "/tmp/ht/datum/run0" = None ->
        gone w' "/tmp/ht/datum/run0")
    /\ (remove_fault (world_keeping "/tmp/ht/datumStats/run0")
          "/tmp/ht/datumStats/run0" = None ->
        gone w' "/tmp/ht/datumStats/run0").
Proof.
  apply (WithDatumCache_removal_errors
           (world_keeping "/tmp/ht/datumStats/run0")
           (default world0
              (callback_world sample_options
                 (world_keeping "/tmp/ht/datumStats/run0")))
           (default world0
              (callback_world sample_options
                 (world_keeping "/tmp/ht/datumStats/run0")))
           (addr 0) sample_driver sample_options cb_ok);
    [reflexivity|reflexivity|vm_compute; reflexivity|vm_compute; reflexivity
    |reflexivity].
Defined.

(** X10: When one of the two directories cannot be made, the callback is not
    called: [WithDatumCache] returns an error, and the same one and in
    the same world whatever the callback is. *)
Theorem WithDatumCache_skips_callback (w : World) (md : ptr)
  (d : MockDriver) (o : MockOptions.t) :
  driver_at w md = Some d -> options_at w (options d) = Some o ->
  callback_world o w = None ->
  exists e w', forall cb, WithDatumCache md cb w = Returned (Some e) w'.
Proof.
  intros Hd Ho Hcw.
  destruct (WithDatumCache_not_called _ _ _ _ Hd Ho Hcw)
    as (e & w' & _ & Hnot).
  by exists e, w'.
Qed.

Lemma WithDatumCache_skips_callback_witness :
  exists e w',
    forall cb,
      WithDatumCache (addr 0) cb (world_with_file "/tmp/ht/datumStats")
      = Returned (Some e) w'.
Proof.
  apply (WithDatumCache_skips_callback (world_with_file "/tmp/ht/datumStats")
           (addr 0) sample_driver sample_options);
    [reflexivity|reflexivity|vm_compute; reflexivity].
Defined.

(** X11: [WithDatumCache] removes nothing but its two run directories: a path
    that is in neither of them, that was there before the call and that
    the callback leaves alone, is there afterwards, on every way out of
    the call. *)
Theorem WithDatumCache_keeps_other_paths (w : World) (md : ptr)
  (d : MockDriver) (o : MockOptions.t)
  (cb : hashtree.MergeCache -> hashtree.MergeCache -> M (option error))
  (q : string) (k : FileKind) :
  driver_at w md = Some d -> options_at w (options d) = Some o ->
  os.under (datum_dir o (next_run_id w)) q = false ->
  os.under (stats_dir o (next_run_id w)) q = false ->
  (forall dc sc w1, disk w1 !! q = Some k ->
                    disk (world_of (cb dc sc w1)) !! q = Some k) ->
  disk w !! q = Some k ->
  disk (world_of (WithDatumCache md cb w)) !! q = Some k.
Proof.
  intros Hd Ho Hqd Hqs Hcb Hk.
  destruct (callback_world o w) as [w2|] eqn:Hcw.
  - destruct (WithDatumCache_called _ _ _ _ _ Hd Ho Hcw)
      as (_ & _ & _ & Hmono & Hcalled).
    rewrite Hcalled.
    apply with_defer_remove_keeps; [exact Hqd|].
    apply with_defer_remove_keeps; [exact Hqs|].
    by apply Hcb, Hmono.
  - destruct (WithDatumCache_not_called _ _ _ _ Hd Ho Hcw)
      as (e & w' & Hkeep & Hnot).
    rewrite Hnot. wsimpl. by apply Hkeep.
Qed.

Lemma WithDatumCache_keeps_other_paths_witness :
  disk (world_of (WithDatumCache (addr 0) cb_ok
                    (world_with_file "/tmp/ht/datum/run1")))
    !! "/tmp/ht/datum/run1"
  = Some File.
Proof.
  apply (WithDatumCache_keeps_other_paths
           (world_with_file "/tmp/ht/datum/run1") (addr 0) sample_driver
           sample_options cb_ok "/tmp/ht/datum/run1" File);
    [reflexivity|reflexivity|vm_compute; reflexivity|vm_compute; reflexivity
    | intros dc sc w1 H; exact H |vm_compute; reflexivity].
Defined.

(** X12: [WithDatumCache] does not ask for a storage root. With an empty
    [HashtreePath] the run's directories are the relative paths
    [datum/<id>] and [datumStats/<id>]; when the two can be made, the
    callback is called with their caches while both are directories, and
    the call is the callback followed by the two deferred removals. *)
Theorem WithDatumCache_without_root (w w2 : World) (md : ptr)
  (d : MockDriver) (o : MockOptions.t) :
  driver_at w md = Some d -> options_at w (options d) = Some o ->
  MockOptions.HashtreePath o = "" ->
  Filepath.plain (next_run_id w) = true ->
  callback_world o w = Some w2 ->
  let datum := "datum/" +:+ next_run_id w in
  let stats := "datumStats/" +:+ next_run_id w in
  datum_dir o (next_run_id w) = datum
  /\ stats_dir o (next_run_id w) = stats
  /\ is_dir w2 datum = true
  /\ is_dir w2 stats = true
  /\ forall cb,
       WithDatumCache md cb w
       = with_defer (remove_cache datum) None
           (with_defer (remove_cache stats) None
              (cb (hashtree.NewMergeCache datum)
                  (hashtree.NewMergeCache stats)))
           w2.
Proof.
  intros Hd Ho Hroot Hplain Hcw datum stats.
  destruct (run_dirs_plain o _ Hplain) as (Ed & Es & _).
  rewrite Hroot in Ed, Es.
  change (Filepath.dir_prefix "") with "" in Ed, Es.
  change (datum_dir o (next_run_id w) = datum) in Ed.
  change (stats_dir o (next_run_id w) = stats) in Es.
  destruct (WithDatumCache_called _ _ _ _ _ Hd Ho Hcw)
    as (Hdd & Hds & _ & _ & Hcalled).
  rewrite Ed in Hdd, Hcalled. rewrite Es in Hds, Hcalled. done.
Qed.

Lemma WithDatumCache_without_root_witness :
  exists w2,
    callback_world rootless_options world_rootless = Some w2
    /\ is_dir w2 "datum/run0" = true
    /\ is_dir w2 "datumStats/run0" = true
    /\ WithDatumCache (addr 0) cb_fails world_rootless
       = with_defer (remove_cache "datum/run0") None
           (with_defer (remove_cache "datumStats/run0") None
              (cb_fails (hashtree.NewMergeCache "datum/run0")
                        (hashtree.NewMergeCache "datumStats/run0")))
           w2
    /\ exists w',
         WithDatumCache (addr 0) cb_fails world_rootless
         = Returned (Some (ErrOther "datum failed")) w'.
Proof.
  exists (default world0 (callback_world rootless_options world_rootless)).
  split; [vm_compute; reflexivity|].
  destruct (WithDatumCache_without_root world_rootless
              (default world0
                 (callback_world rootless_options world_rootless))
              (addr 0) (constructed (Some 7%nat) (addr 0) rootless_options)
              rootless_options eq_refl eq_refl eq_refl eq_refl eq_refl)
    as (_ & _ & Hdd & Hds & Hcalled).
  split; [exact Hdd|]. split; [exact Hds|]. split; [exact (Hcalled cb_fails)|].
  eexists. vm_compute. reflexivity.
Defined.

(** ** Further properties of the job operations *)

(** X13: [UpdateJobState] for a job that is not in the store: the error of
    the lookup is returned as it is, whatever the state asked for, the
    transition is not looked at, and the store is what it was. *)
Theorem UpdateJobState_missing_job (w : World) (md : ptr) (d : MockDriver)
  (o : MockOptions.t) (c : EtcdClient) (jobID : string)
  (state : pps.JobState) (reason : string) :
  driver_at w md = Some d -> options_at w (options d) = Some o ->
  etcdClient d = Some c ->
  etcd w !! job_key d o jobID = None ->
  exists w',
    UpdateJobState md jobID state reason w
    = Returned (Some (ErrNotFound "jobs" jobID)) w'
    /\ etcd w' = etcd w.
Proof.
  intros Hd Ho Hc Hj. exists (set_txn (etcd w) w). split; [|reflexivity].
  unfold UpdateJobState, bind at 1.
  rewrite (NewSTM_at _ _ _ _ _ Hd Hc).
  unfold bind. rewrite (Jobs_at _ _ d o) by done.
  unfold col.Get, col.ReadWrite. wsimpl. cbn [col.rw_collection].
  unfold job_key in Hj. by rewrite Hj.
Qed.

Lemma UpdateJobState_missing_job_witness :
  exists w',
    UpdateJobState (addr 0) "job2" pps.JOB_RUNNING "go"
      (world_with_job pps.JOB_STARTING)
    = Returned (Some (ErrNotFound "jobs" "job2")) w'
    /\ etcd w' = etcd (world_with_job pps.JOB_STARTING).
Proof.
  apply (UpdateJobState_missing_job (world_with_job pps.JOB_STARTING)
           (addr 0) sample_driver sample_options 7%nat "job2"
           pps.JOB_RUNNING "go");
    [reflexivity|reflexivity|reflexivity|vm_compute; reflexivity].
Defined.

(** X14: [DeleteJob] and [UpdateJobState] work on the same collection: once a
    transaction that deletes a job is committed, [UpdateJobState] for that
    job fails with the lookup's error, whatever the state asked for, and
    the job stays deleted. *)
Theorem DeleteJob_then_UpdateJobState (w : World) (md : ptr)
  (d : MockDriver) (o : MockOptions.t) (c : EtcdClient)
  (j : pps.EtcdJobInfo) (state : pps.JobState) (reason : string) :
  driver_at w md = Some d -> options_at w (options d) = Some o ->
  etcdClient d = Some c ->
  exists w1 w2,
    NewSTM md (fun stm => DeleteJob md stm (Some j)) w
    = Returned (Some {| col.Succeeded := true |}, None) w1
    /\ UpdateJobState md (pps.job_id j) state reason w1
       = Returned (Some (ErrNotFound "jobs" (pps.job_id j))) w2
    /\ etcd w2 !! job_key d o (pps.job_id j) = None
    /\ (forall k, k <> job_key d o (pps.job_id j) ->
                  etcd w2 !! k = etcd w !! k).
Proof.
  intros Hd Ho Hc.
  rewrite (DeleteJob_in_NewSTM _ _ _ _ _ j Hd Ho Hc). cbv zeta.
  set (store := delete (job_key d o (pps.job_id j)) (etcd w)).
  set (w1 := set_etcd store (set_txn store w)).
  assert (Hd1 : driver_at w1 md = Some d) by (by destruct md).
  assert (Ho1 : options_at w1 (options d) = Some o)
    by (by destruct (options d)).
  assert (Hj1 : etcd w1 !! job_key d o (pps.job_id j) = None)
    by apply lookup_delete_eq.
  exists w1, (set_txn (etcd w1) w1). split; [reflexivity|]. split.
  { unfold UpdateJobState, bind at 1.
    rewrite (NewSTM_at _ _ _ _ _ Hd1 Hc).
    unfold bind. rewrite (Jobs_at _ _ d o) by done.
    unfold col.Get, col.ReadWrite. cbn [col.rw_collection txn set_txn].
    unfold job_key in Hj1. by rewrite Hj1. }
  split; [exact Hj1|].
  intros k Hk. simpl. by apply lookup_delete_ne.
Qed.

Lemma DeleteJob_then_UpdateJobState_witness :
  exists w1 w2,
    NewSTM (addr 0)
      (fun stm => DeleteJob (addr 0) stm (Some (sample_job pps.JOB_RUNNING)))
      (world_with_job pps.JOB_RUNNING)
    = Returned (Some {| col.Succeeded := true |}, None) w1
    /\ UpdateJobState (addr 0) (pps.job_id (sample_job pps.JOB_RUNNING))
         pps.JOB_SUCCESS "done" w1
       = Returned
           (Some (ErrNotFound "jobs"
                    (pps.job_id (sample_job pps.JOB_RUNNING)))) w2
    /\ etcd w2 !! job_key sample_driver sample_options
                    (pps.job_id (sample_job pps.JOB_RUNNING)) = None
    /\ (forall k,
          k <> job_key sample_driver sample_options
                 (pps.job_id (sample_job pps.JOB_RUNNING)) ->
          etcd w2 !! k = etcd (world_with_job pps.JOB_RUNNING) !! k).
Proof.
  apply (DeleteJob_then_UpdateJobState (world_with_job pps.JOB_RUNNING)
           (addr 0) sample_driver sample_options 7%nat
           (sample_job pps.JOB_RUNNING) pps.JOB_SUCCESS "done");
    reflexivity.
Defined.

(** ** Worked examples *)
Example Clean_table :
  map Filepath.Clean
    ["abc//def//ghi"; "abc/def/../ghi/../jkl"; "/../abc"; "../../abc";
     "abc/.."; "/"; ""; "abc/./../def"; "abc/def/"; "/abc/../.."; "a/../../b"]
  = ["abc/def/ghi"; "abc/jkl"; "/abc"; "../../abc";
     "."; "/"; "."; "def"; "abc/def"; "/"; "../b"].
Proof. reflexivity. Qed.

Example Join_table :
  map Filepath.Join
    [["a"; "b"]; ["a"; ""]; [""; "b"]; ["/"; "a"]; ["a/"; "b"]; [""; ""];
     ["/tmp/ht"; "datum"; "0af3"]; [""; "datum"; "0af3"]]
  = ["a/b"; "a"; "b"; "/a"; "a/b"; "";
     "/tmp/ht/datum/0af3"; "datum/0af3"].
Proof. reflexivity. Qed.

Example MkdirAll_makes_parents :
  exists w',
    os.MkdirAll "/tmp/ht/datum/run0" 511 world0 = Returned None w'
    /\ map (fun q => disk w' !! q)
         ["/tmp"; "/tmp/ht"; "/tmp/ht/datum"; "/tmp/ht/datum/run0"; "/"]
       = [Some Dir; Some Dir; Some Dir; Some Dir; None].
Proof. eexists. split; vm_compute; reflexivity. Qed.

Example Mkdir_needs_the_directory_above :
  os.Mkdir "/tmp/ht" 511 world0
  = Returned (Some (PathError "mkdir" "/tmp/ht" "ENOENT")) world0
  /\ exists w', os.Mkdir "/tmp" 511 world0 = Returned None w'
                /\ os.Mkdir "/tmp/ht" 511 w' = Returned None
                     (set_disk {[ "/tmp" := Dir; "/tmp/ht" := Dir ]} world0).
Proof.
  split; [reflexivity|]. eexists. split; [reflexivity|].
  vm_compute. reflexivity.
Qed.

Example MkdirAll_under_a_file :
  os.MkdirAll "/tmp/ht/datum" 511
    (set_disk {[ "/tmp" := Dir; "/tmp/ht" := File ]} world0)
  = Returned (Some (PathError "mkdir" "/tmp/ht" "ENOTDIR"))
             (set_disk {[ "/tmp" := Dir; "/tmp/ht" := File ]} world0).
Proof. vm_compute. reflexivity. Qed.

Example RemoveAll_removes_below :
  exists w',
    os.RemoveAll "/tmp/ht/datum"
      (set_disk {[ "/tmp/ht" := Dir; "/tmp/ht/datum" := Dir;
                   "/tmp/ht/datum/run0" := Dir;
                   "/tmp/ht/datum/run0/0" := File;
                   "/tmp/ht/datumStats" := Dir ]} world0)
    = Returned None w'
    /\ map (fun q => disk w' !! q)
         ["/tmp/ht"; "/tmp/ht/datum"; "/tmp/ht/datum/run0";
          "/tmp/ht/datum/run0/0"; "/tmp/ht/datumStats"]
       = [Some Dir; None; None; None; Some Dir].
Proof. eexists. split; vm_compute; reflexivity. Qed.

Example WithDatumCache_removal_error_is_returned :
  exists w',
    WithDatumCache (addr 0) cb_ok (world_keeping "/tmp/ht/datum/run0")
    = Returned (Some (PathError "unlinkat" "/tmp/ht/datum/run0" "EACCES")) w'.
Proof. eexists. vm_compute. reflexivity. Qed.

Example UpdateJobState_starting_to_running :
  exists w',
    UpdateJobState (addr 0) "job1" pps.JOB_RUNNING ""
      (world_with_job pps.JOB_STARTING) = Returned None w'
    /\ etcd w' !! job_key sample_driver sample_options "job1"
       = Some (VJob (sample_job pps.JOB_RUNNING)).
Proof. eexists. split; vm_compute; reflexivity. Qed.

Example UpdateJobState_unknown_job :
  UpdateJobState (addr 0) "job2" pps.JOB_RUNNING ""
    (world_with_job pps.JOB_STARTING)
  = Returned (Some (ErrNotFound "jobs" "job2"))
      (set_txn (etcd (world_with_job pps.JOB_STARTING))
         (world_with_job pps.JOB_STARTING)).
Proof. vm_compute. reflexivity. Qed.

Example merge_trees_any_order :
  map (merge_trees "run")
    [ [(0%nat, tree_A); (1%nat, tree_B); (2%nat, tree_C)];
      [(0%nat, tree_A); (2%nat, tree_C); (1%nat, tree_B)];
      [(1%nat, tree_B); (0%nat, tree_A); (2%nat, tree_C)];
      [(1%nat, tree_B); (2%nat, tree_C); (0%nat, tree_A)];
      [(2%nat, tree_C); (0%nat, tree_A); (1%nat, tree_B)];
      [(2%nat, tree_C); (1%nat, tree_B); (0%nat, tree_A)] ]
  = repeat [("/a", "h1"); ("/b", "h2"); ("/c", "h3")] 6.
Proof. vm_compute. reflexivity. Qed.

(** Two chunks and two workers: a chunk under a valid lease cannot be
    claimed by the other worker, a worker without the lease cannot
    complete a chunk, and the master waits for both chunks. *)
Example master_waits_for_both_chunks :
  let trace :=
    [ work.Claim "w1" 0 10 30; work.Claim "w2" 0 20 30;
      work.Complete "w2" 0; work.Complete "w1" 0;
      work.Claim "w2" 1 50 30; work.Complete "w2" 1 ] in
  map (fun k => work.reports_complete 2 100 (take k trace)) (seq 0 7)
  = [false; false; false; false; false; false; true]
  /\ work.wait 2 100 trace = Some 6%nat
  /\ work.wait 2 100 (take 5 trace) = None.
Proof. repeat split; vm_compute; reflexivity. Qed.
